(** * Shallow embedding of the LUMI H5P chat streaming path

    Sources:
    - [src/src/implementations/OllamaService.ts]: [OllamaService]
      ([stopStream], [chatStream], [getContentTypePrompt],
      [getH5PContentSuggestions]);
    - [src/unnamed/part_001]: the Express router (the streaming relay);
    - [src/unnamed/part_000]: the React [H5PChat] component ([handleSubmit]).

    JS strings are sequences of UTF-16 code units, modelled as [list Z]. *)

From Stdlib Require Import ZArith List String Ascii Bool Lia.
Import ListNotations.
Open Scope Z_scope.
Set Warnings "-register-all".

(** ** JS strings *)

Definition jsstring := list Z.

(** A Rocq (ASCII) string literal as a JS string. *)
Definition js (s : string) : jsstring :=
  map (fun a => Z.of_nat (nat_of_ascii a)) (list_ascii_of_string s).

Fixpoint jsstring_eqb (a b : jsstring) : bool :=
  match a, b with
  | [], [] => true
  | x :: a', y :: b' => (x =? y) && jsstring_eqb a' b'
  | _, _ => false
  end.

(** White space and line terminators removed by [String.prototype.trim]. *)
Definition is_js_space (c : Z) : bool :=
  (c =? 9) || (c =? 10) || (c =? 11) || (c =? 12) || (c =? 13) || (c =? 32)
  || (c =? 160) || (c =? 5760) || ((8192 <=? c) && (c <=? 8202))
  || (c =? 8232) || (c =? 8233) || (c =? 8239) || (c =? 8287)
  || (c =? 12288) || (c =? 65279).

(** [s.trim()] is truthy (non-empty) iff some code unit is not white space. *)
Definition trim_nonempty (s : jsstring) : bool :=
  existsb (fun c => negb (is_js_space c)) s.

(** ** [OllamaService.getContentTypePrompt]

    [contentTypePrompts[contentType]] is a property lookup on a plain object
    literal: a key that is not one of the six own keys is looked up on
    [Object.prototype]. *)

Inductive prop_value :=
  | PStr (s : jsstring)          (* a string property *)
  | PFun (name : jsstring)       (* a built-in function of Object.prototype *)
  | PObjectProto                 (* the object returned by the __proto__ getter *)
  | PUndefined.

Definition content_type_prompts : list (jsstring * jsstring) :=
  [ (js "H5P.InteractiveVideo", js "Consider: timestamps for interactions, types of questions to ask at each point, visual cues, and branching scenarios.");
    (js "H5P.Course", js "Structure your course with: main topics, subtopics, learning objectives, assessment criteria, and progression rules.");
    (js "H5P.QuestionSet", js "Include variety in question types: multiple choice, true/false, fill in the blanks, matching, and drag-and-drop.");
    (js "H5P.InteractiveBook", js "Plan chapters with: multimedia content, interactive elements, self-assessment, and navigation structure.");
    (js "H5P.Timeline", js "Organize events with: dates, descriptions, media elements, and connections between events.");
    (js "H5P.BranchingScenario", js "Design decision trees with: multiple paths, consequences, feedback, and learning outcomes.") ].

(** Properties of [Object.prototype] (key, value). *)
Definition object_prototype : list (jsstring * prop_value) :=
  [ (js "constructor", PFun (js "Object"));
    (js "__defineGetter__", PFun (js "__defineGetter__"));
    (js "__defineSetter__", PFun (js "__defineSetter__"));
    (js "hasOwnProperty", PFun (js "hasOwnProperty"));
    (js "__lookupGetter__", PFun (js "__lookupGetter__"));
    (js "__lookupSetter__", PFun (js "__lookupSetter__"));
    (js "isPrototypeOf", PFun (js "isPrototypeOf"));
    (js "propertyIsEnumerable", PFun (js "propertyIsEnumerable"));
    (js "toString", PFun (js "toString"));
    (js "valueOf", PFun (js "valueOf"));
    (js "__proto__", PObjectProto);
    (js "toLocaleString", PFun (js "toLocaleString")) ].

Fixpoint assoc {A} (k : jsstring) (l : list (jsstring * A)) : option A :=
  match l with
  | [] => None
  | (k', v) :: r => if jsstring_eqb k k' then Some v else assoc k r
  end.

(** Property lookup [o[k]] along the prototype chain of an object literal. *)
Definition lookup_prop (own : list (jsstring * jsstring)) (k : jsstring) : prop_value :=
  match assoc k own with
  | Some s => PStr s
  | None =>
      match assoc k object_prototype with
      | Some v => v
      | None => PUndefined
      end
  end.

Definition truthy_prop (v : prop_value) : bool :=
  match v with
  | PStr s => negb (jsstring_eqb s [])
  | PFun _ | PObjectProto => true
  | PUndefined => false
  end.

Definition default_prompt : jsstring :=
  js "Consider the best way to present this content interactively.".

Definition getContentTypePrompt (contentType : jsstring) : prop_value :=
  let v := lookup_prop content_type_prompts contentType in
  if truthy_prop v then v else PStr default_prompt.

(** [ToString] of the looked-up value, as used by the template literal. *)
Definition prop_to_string (v : prop_value) : jsstring :=
  match v with
  | PStr s => s
  | PFun n => js "function " ++ n ++ js "() { [native code] }"
  | PObjectProto => js "[object Object]"
  | PUndefined => js "undefined"
  end.

(** ** [OllamaService.stopStream]

    The service holds one slot [abortController]; a controller is named by
    a number.  [stopStream] returns the new service state and the controller
    it aborted, if any. *)

Record service := mkService {
  abortController : option nat;
  next_controller : nat   (* identity of the next [new AbortController()] *)
}.

Definition stopStream (s : service) : service * option nat :=
  match abortController s with
  | Some c => (mkService None (next_controller s), Some c)
  | None => (s, None)
  end.

(** ** UTF-8 (the platform's text codecs)

    [stream.push(string)] in the relay encodes the string as UTF-8 (lone
    surrogates become U+FFFD); [new TextDecoder().decode(value)] in the
    consumer runs the WHATWG UTF-8 decoder over [value] alone, flushes it,
    and drops a leading byte order mark. *)

Definition is_high (c : Z) : bool := (0xD800 <=? c) && (c <=? 0xDBFF).
Definition is_low (c : Z) : bool := (0xDC00 <=? c) && (c <=? 0xDFFF).

(** Code points of a JS string; a lone surrogate reads as U+FFFD. *)
Fixpoint utf16_code_points (s : jsstring) : list Z :=
  match s with
  | [] => []
  | c :: r =>
      if is_high c then
        match r with
        | d :: r' =>
            if is_low d
            then (0x10000 + Z.shiftl (c - 0xD800) 10 + (d - 0xDC00))
                   :: utf16_code_points r'
            else 0xFFFD :: utf16_code_points r
        | [] => [0xFFFD]
        end
      else if is_low c then 0xFFFD :: utf16_code_points r
      else c :: utf16_code_points r
  end.

Definition utf8_encode_cp (cp : Z) : list Z :=
  if cp <? 0x80 then [cp]
  else if cp <? 0x800 then
    [Z.lor 0xC0 (Z.shiftr cp 6); Z.lor 0x80 (Z.land cp 0x3F)]
  else if cp <? 0x10000 then
    [Z.lor 0xE0 (Z.shiftr cp 12); Z.lor 0x80 (Z.land (Z.shiftr cp 6) 0x3F);
     Z.lor 0x80 (Z.land cp 0x3F)]
  else
    [Z.lor 0xF0 (Z.shiftr cp 18); Z.lor 0x80 (Z.land (Z.shiftr cp 12) 0x3F);
     Z.lor 0x80 (Z.land (Z.shiftr cp 6) 0x3F); Z.lor 0x80 (Z.land cp 0x3F)].

Definition utf8_encode (s : jsstring) : list Z :=
  flat_map utf8_encode_cp (utf16_code_points s).

Record utf8_decoder := mkDec {
  bytes_needed : Z;
  bytes_seen : Z;
  code_point : Z;
  lower_boundary : Z;
  upper_boundary : Z
}.

Definition dec_init : utf8_decoder := mkDec 0 0 0 0x80 0xBF.

(** A byte read while no continuation byte is expected. *)
Definition dec_lead (b : Z) : list Z * utf8_decoder :=
  if (0 <=? b) && (b <=? 0x7F) then ([b], dec_init)
  else if (0xC2 <=? b) && (b <=? 0xDF) then
    ([], mkDec 1 0 (Z.land b 0x1F) 0x80 0xBF)
  else if (0xE0 <=? b) && (b <=? 0xEF) then
    ([], mkDec 2 0 (Z.land b 0xF)
           (if b =? 0xE0 then 0xA0 else 0x80) (if b =? 0xED then 0x9F else 0xBF))
  else if (0xF0 <=? b) && (b <=? 0xF4) then
    ([], mkDec 3 0 (Z.land b 0x7)
           (if b =? 0xF0 then 0x90 else 0x80) (if b =? 0xF4 then 0x8F else 0xBF))
  else ([0xFFFD], dec_init).

(** One byte: the code points emitted and the next decoder state.  A byte
    outside the expected range emits U+FFFD and is processed again. *)
Definition dec_step (d : utf8_decoder) (b : Z) : list Z * utf8_decoder :=
  if bytes_needed d =? 0 then dec_lead b
  else if negb ((lower_boundary d <=? b) && (b <=? upper_boundary d)) then
    let (o, d') := dec_lead b in (0xFFFD :: o, d')
  else
    let cp := Z.lor (Z.shiftl (code_point d) 6) (Z.land b 0x3F) in
    if bytes_seen d + 1 =? bytes_needed d then ([cp], dec_init)
    else ([], mkDec (bytes_needed d) (bytes_seen d + 1) cp 0x80 0xBF).

(** Decoding to the end of the queue (flush). *)
Fixpoint dec_run (d : utf8_decoder) (bs : list Z) : list Z :=
  match bs with
  | [] => if bytes_needed d =? 0 then [] else [0xFFFD]
  | b :: r => let (o, d') := dec_step d b in o ++ dec_run d' r
  end.

Definition cp_to_utf16 (cp : Z) : list Z :=
  if cp <? 0x10000 then [cp]
  else [0xD800 + Z.shiftr (cp - 0x10000) 10; 0xDC00 + Z.land (cp - 0x10000) 0x3FF].

Definition strip_bom (s : jsstring) : jsstring :=
  match s with
  | c :: r => if c =? 0xFEFF then r else s
  | [] => []
  end.

(** [decoder.decode(value)] without [{stream: true}]. *)
Definition utf8_decode (bs : list Z) : jsstring :=
  strip_bom (flat_map cp_to_utf16 (dec_run dec_init bs)).

(** ** JSON values, [JSON.parse] and [JSON.stringify]

    Numbers keep their lexeme: [Number::toString] of the parsed double is a
    parameter of the section (IEEE rounding and shortest formatting are not
    modelled). *)

Inductive jvalue :=
  | JNull
  | JBool (b : bool)
  | JNum (lexeme : jsstring)
  | JStr (s : jsstring)
  | JArr (xs : list jvalue)
  | JObj (props : list (jsstring * jvalue)).

(** A JS value read from a parsed record: [undefined] or a JSON value. *)
Inductive jsval :=
  | Undefined
  | Val (v : jvalue).

Definition is_json_ws (c : Z) : bool := (c =? 32) || (c =? 9) || (c =? 10) || (c =? 13).

Fixpoint skip_ws (s : jsstring) : jsstring :=
  match s with
  | c :: r => if is_json_ws c then skip_ws r else s
  | [] => []
  end.

Definition is_digit (c : Z) : bool := (48 <=? c) && (c <=? 57).

Definition hex_val (c : Z) : option Z :=
  if is_digit c then Some (c - 48)
  else if (97 <=? c) && (c <=? 102) then Some (c - 87)
  else if (65 <=? c) && (c <=? 70) then Some (c - 55)
  else None.

(** The single-character escapes: quote, backslash, slash, b, f, n, r, t. *)
Definition escape_char (e : Z) : option Z :=
  if e =? 34 then Some 34 else if e =? 92 then Some 92
  else if e =? 47 then Some 47 else if e =? 98 then Some 8
  else if e =? 102 then Some 12 else if e =? 110 then Some 10
  else if e =? 114 then Some 13 else if e =? 116 then Some 9
  else None.

(** A string literal after its opening quote: the code units and the text
    after the closing quote. *)
Fixpoint parse_string_body (s : jsstring) : option (jsstring * jsstring) :=
  match s with
  | [] => None
  | c :: r =>
      if c =? 34 then Some ([], r)
      else if c =? 92 then
        match r with
        | [] => None
        | e :: r1 =>
            if e =? 117 then
              match r1 with
              | h1 :: h2 :: h3 :: h4 :: r2 =>
                  match hex_val h1, hex_val h2, hex_val h3, hex_val h4 with
                  | Some a, Some b, Some x, Some y =>
                      match parse_string_body r2 with
                      | Some (str, rest) => Some ((a * 4096 + b * 256 + x * 16 + y) :: str, rest)
                      | None => None
                      end
                  | _, _, _, _ => None
                  end
              | _ => None
              end
            else
              match escape_char e with
              | Some u =>
                  match parse_string_body r1 with
                  | Some (str, rest) => Some (u :: str, rest)
                  | None => None
                  end
              | None => None
              end
        end
      else if c <? 32 then None
      else
        match parse_string_body r with
        | Some (str, rest) => Some (c :: str, rest)
        | None => None
        end
  end.

Fixpoint span_digits (s : jsstring) : jsstring * jsstring :=
  match s with
  | c :: r =>
      if is_digit c then let (ds, rest) := span_digits r in (c :: ds, rest)
      else ([], s)
  | [] => ([], [])
  end.

Definition parse_int_part (s : jsstring) : option (jsstring * jsstring) :=
  match s with
  | c :: r =>
      if c =? 48 then Some ([48], r)
      else if is_digit c then let (ds, rest) := span_digits r in Some (c :: ds, rest)
      else None
  | [] => None
  end.

Definition parse_frac (s : jsstring) : option (jsstring * jsstring) :=
  match s with
  | c :: r =>
      if c =? 46 then
        match span_digits r with
        | ([], _) => None
        | (ds, rest) => Some (46 :: ds, rest)
        end
      else Some ([], s)
  | [] => Some ([], [])
  end.

Definition parse_exp (s : jsstring) : option (jsstring * jsstring) :=
  match s with
  | c :: r =>
      if (c =? 101) || (c =? 69) then
        let (sg, r1) :=
          match r with
          | d :: r' => if (d =? 43) || (d =? 45) then ([d], r') else ([], r)
          | [] => ([], [])
          end in
        match span_digits r1 with
        | ([], _) => None
        | (ds, rest) => Some (c :: sg ++ ds, rest)
        end
      else Some ([], s)
  | [] => Some ([], [])
  end.

Definition parse_number (s : jsstring) : option (jsstring * jsstring) :=
  let (sg, s1) :=
    match s with
    | c :: r => if c =? 45 then ([45], r) else ([], s)
    | [] => ([], [])
    end in
  match parse_int_part s1 with
  | None => None
  | Some (ip, s2) =>
      match parse_frac s2 with
      | None => None
      | Some (fp, s3) =>
          match parse_exp s3 with
          | None => None
          | Some (ep, s4) => Some (sg ++ ip ++ fp ++ ep, s4)
          end
      end
  end.

Fixpoint strip_prefix (p s : jsstring) : option jsstring :=
  match p, s with
  | [], _ => Some s
  | x :: p', y :: s' => if x =? y then strip_prefix p' s' else None
  | _, [] => None
  end.

(** [CreateDataProperty] on the object being built: a repeated key keeps
    its first position and takes the new value. *)
Fixpoint create_data_property (k : jsstring) (v : jvalue)
    (props : list (jsstring * jvalue)) : list (jsstring * jvalue) :=
  match props with
  | [] => [(k, v)]
  | (k', v') :: r =>
      if jsstring_eqb k k' then (k', v) :: r else (k', v') :: create_data_property k v r
  end.

(** An array index key: the canonical decimal form of an integer below
    [2^32 - 1]. *)
Definition array_index (k : jsstring) : option Z :=
  match k with
  | [] => None
  | c :: r =>
      if forallb is_digit k && (negb (c =? 48) || match r with [] => true | _ => false end) then
        let n := fold_left (fun acc d => acc * 10 + (d - 48)) k 0 in
        if n <? 4294967295 then Some n else None
      else None
  end.

Fixpoint insert_index (n : Z) (kv : jsstring * jvalue)
    (l : list (Z * (jsstring * jvalue))) : list (Z * (jsstring * jvalue)) :=
  match l with
  | [] => [(n, kv)]
  | (m, kv') :: r => if n <? m then (n, kv) :: l else (m, kv') :: insert_index n kv r
  end.

(** [OrdinaryOwnPropertyKeys]: array indices in ascending order, then the
    other keys in creation order. *)
Definition own_keys_order (props : list (jsstring * jvalue)) : list (jsstring * jvalue) :=
  map snd (fold_left (fun acc kv =>
             match array_index (fst kv) with
             | Some n => insert_index n kv acc
             | None => acc
             end) props [])
  ++ filter (fun kv => match array_index (fst kv) with Some _ => false | None => true end) props.

(** The object built by [JSON.parse], its properties in own-key order. *)
Definition build_object (members : list (jsstring * jvalue)) : list (jsstring * jvalue) :=
  own_keys_order
    (fold_left (fun acc kv => create_data_property (fst kv) (snd kv) acc) members []).

(** A JSON text; [fuel] bounds the nesting and the number of members, each
    of which takes at least one code unit. *)
Fixpoint parse_value (fuel : nat) (s : jsstring) : option (jvalue * jsstring) :=
  match fuel with
  | O => None
  | S f =>
      match skip_ws s with
      | [] => None
      | c :: r =>
          if c =? 123 then
            match skip_ws r with
            | d :: r' =>
                if d =? 125 then Some (JObj [], r')
                else match parse_members f (skip_ws r) with
                     | Some (ms, rest) => Some (JObj (build_object ms), rest)
                     | None => None
                     end
            | [] => None
            end
          else if c =? 91 then
            match skip_ws r with
            | d :: r' =>
                if d =? 93 then Some (JArr [], r')
                else match parse_elements f r with
                     | Some (xs, rest) => Some (JArr xs, rest)
                     | None => None
                     end
            | [] => None
            end
          else if c =? 34 then
            match parse_string_body r with
            | Some (str, rest) => Some (JStr str, rest)
            | None => None
            end
          else if (c =? 45) || is_digit c then
            match parse_number (c :: r) with
            | Some (lex, rest) => Some (JNum lex, rest)
            | None => None
            end
          else
            match strip_prefix (js "true") (c :: r) with
            | Some rest => Some (JBool true, rest)
            | None =>
                match strip_prefix (js "false") (c :: r) with
                | Some rest => Some (JBool false, rest)
                | None =>
                    match strip_prefix (js "null") (c :: r) with
                    | Some rest => Some (JNull, rest)
                    | None => None
                    end
                end
            end
      end
  end
(** Members of an object, from a key (white space already skipped) to the
    closing brace. *)
with parse_members (fuel : nat) (s : jsstring) : option (list (jsstring * jvalue) * jsstring) :=
  match fuel with
  | O => None
  | S f =>
      match s with
      | c :: r =>
          if c =? 34 then
            match parse_string_body r with
            | Some (k, r1) =>
                match skip_ws r1 with
                | d :: r2 =>
                    if d =? 58 then
                      match parse_value f r2 with
                      | Some (v, r3) =>
                          match skip_ws r3 with
                          | e :: r4 =>
                              if e =? 44 then
                                match parse_members f (skip_ws r4) with
                                | Some (ms, rest) => Some ((k, v) :: ms, rest)
                                | None => None
                                end
                              else if e =? 125 then Some ([(k, v)], r4)
                              else None
                          | [] => None
                          end
                      | None => None
                      end
                    else None
                | [] => None
                end
            | None => None
            end
          else None
      | [] => None
      end
  end
(** Elements of an array, up to the closing bracket. *)
with parse_elements (fuel : nat) (s : jsstring) : option (list jvalue * jsstring) :=
  match fuel with
  | O => None
  | S f =>
      match parse_value f s with
      | Some (v, r) =>
          match skip_ws r with
          | e :: r' =>
              if e =? 44 then
                match parse_elements f r' with
                | Some (vs, rest) => Some (v :: vs, rest)
                | None => None
                end
              else if e =? 93 then Some ([v], r')
              else None
          | [] => None
          end
      | None => None
      end
  end.

(** [JSON.parse(text)]; [None] is a thrown [SyntaxError]. *)
Definition json_parse (text : jsstring) : option jvalue :=
  match parse_value (S (List.length text)) text with
  | Some (v, rest) =>
      match skip_ws rest with
      | [] => Some v
      | _ => None
      end
  | None => None
  end.

(** [parsed.response]; reading a property of [null] throws a [TypeError]
    ([None]).  Primitives, arrays and objects without the key give
    [undefined]. *)
Definition get_response (parsed : jvalue) : option jsval :=
  match parsed with
  | JNull => None
  | JObj props =>
      Some (match assoc (js "response") props with
            | Some v => Val v
            | None => Undefined
            end)
  | _ => Some Undefined
  end.

Definition hex_digit (n : Z) : Z := if n <? 10 then 48 + n else 87 + n.

(** [UnicodeEscape]: backslash, [u], four lower-case hex digits. *)
Definition unicode_escape (c : Z) : jsstring :=
  [92; 117; hex_digit (Z.shiftr c 12); hex_digit (Z.land (Z.shiftr c 8) 15);
   hex_digit (Z.land (Z.shiftr c 4) 15); hex_digit (Z.land c 15)].

(** [QuoteJSONString] on a code unit that is not a surrogate. *)
Definition escape_unit (c : Z) : jsstring :=
  if c =? 8 then [92; 98] else if c =? 9 then [92; 116]
  else if c =? 10 then [92; 110] else if c =? 12 then [92; 102]
  else if c =? 13 then [92; 114] else if c =? 34 then [92; 34]
  else if c =? 92 then [92; 92] else if c <? 32 then unicode_escape c
  else [c].

(** [QuoteJSONString] without the quotes: a surrogate pair is copied, a
    lone surrogate is escaped. *)
Fixpoint json_escape (s : jsstring) : jsstring :=
  match s with
  | [] => []
  | c :: r =>
      if is_high c then
        match r with
        | d :: r' =>
            if is_low d then c :: d :: json_escape r'
            else unicode_escape c ++ json_escape r
        | [] => unicode_escape c
        end
      else if is_low c then unicode_escape c ++ json_escape r
      else escape_unit c ++ json_escape r
  end.

Definition quote_json (s : jsstring) : jsstring := [34] ++ json_escape s ++ [34].

Fixpoint join (sep : jsstring) (l : list jsstring) : jsstring :=
  match l with
  | [] => []
  | [x] => x
  | x :: r => x ++ sep ++ join sep r
  end.

Section WithNumberFormat.

(** [Number::toString] of the double denoted by a JSON number lexeme. *)
Variable number_to_string : jsstring -> jsstring.

(** [JSON.stringify] of a value read from [JSON.parse]. *)
Fixpoint json_stringify (v : jvalue) : jsstring :=
  match v with
  | JNull => js "null"
  | JBool true => js "true"
  | JBool false => js "false"
  | JNum lex =>
      let s := number_to_string lex in
      if jsstring_eqb s (js "Infinity") || jsstring_eqb s (js "-Infinity")
      then js "null" else s
  | JStr s => quote_json s
  | JArr xs => [91] ++ join [44] (map json_stringify xs) ++ [93]
  | JObj props =>
      [123] ++ join [44] (map (fun kv => quote_json (fst kv) ++ [58] ++ json_stringify (snd kv)) props)
      ++ [125]
  end.

(** [ToString], as used by [+=] on a string ([None]: it throws a
    [TypeError]).  For an object, [ToPrimitive] tries [toString], then
    [valueOf]: an own [toString] key of a parsed object holds a JSON value,
    which is not callable, and the inherited [Object.prototype.valueOf]
    returns the object itself, so the conversion throws; without that key
    [Object.prototype.toString] gives ["[object Object]"].  An array is
    converted by [join], with [null] elements as the empty string. *)
Fixpoint jvalue_to_string (v : jvalue) : option jsstring :=
  match v with
  | JNull => Some (js "null")
  | JBool true => Some (js "true")
  | JBool false => Some (js "false")
  | JNum lex => Some (number_to_string lex)
  | JStr s => Some s
  | JArr xs =>
      option_map (join [44])
        (fold_right (fun x acc =>
                       match (match x with JNull => Some [] | _ => jvalue_to_string x end), acc with
                       | Some e, Some r => Some (e :: r)
                       | _, _ => None
                       end) (Some []) xs)
  | JObj props =>
      match assoc (js "toString") props with
      | Some _ => None
      | None => Some (js "[object Object]")
      end
  end.

Definition jsval_to_string (v : jsval) : option jsstring :=
  match v with
  | Undefined => Some (js "undefined")
  | Val x => jvalue_to_string x
  end.

(** [JSON.stringify({ response: chunk }) + '\n'] (part_001, line 65); an
    undefined property is left out. *)
Definition response_line (chunk : jsval) : jsstring :=
  match chunk with
  | Undefined => js "{}"
  | Val v => [123] ++ quote_json (js "response") ++ [58] ++ json_stringify v ++ [125]
  end ++ [10].

End WithNumberFormat.

(** [chunk.split('\n')] *)
Fixpoint split_nl (s : jsstring) : list jsstring :=
  match s with
  | [] => [[]]
  | c :: r =>
      if c =? 10 then [] :: split_nl r
      else match split_nl r with
           | l :: ls => (c :: l) :: ls
           | [] => [[c]]
           end
  end.

(** ** The Stream Consumer: [H5PChat.handleSubmit] (part_000) *)

Inductive role := User | Assistant.

Definition role_eqb (a b : role) : bool :=
  match a, b with
  | User, User | Assistant, Assistant => true
  | _, _ => false
  end.

Record Message := mkMessage {
  msg_role : role;
  content : jsstring;
  timestamp : Z    (* the [Date] value *)
}.

(** Component state: [messages], [input], [isLoading]. *)
Record chat_state := mkChat {
  messages : list Message;
  input : jsstring;
  isLoading : bool
}.

(** The body of [streamResponse]: what successive [reader.read()] calls
    give.  [TPending]: the read never settles (the server keeps the
    response open). *)
Inductive transport :=
  | TDone
  | TFail
  | TPending
  | TChunk (value : list Z) (rest : transport).

(** The outcome of [fetch]: rejected, or a response whose [body] may be
    [null]. *)
Inductive fetch_result :=
  | FetchReject
  | FetchResponse (body : option transport).

(** The fate of the promise returned by [handleSubmit]. *)
Inductive promise_outcome :=
  | Resolved (value : jsval)
  | Rejected (reason : jsstring)
  | Unsettled.                   (* it never settles *)

(** Whether the reads of a body come to an end: a read gives [done] or
    rejects.  At [TPending] the loop waits forever. *)
Fixpoint settles (t : transport) : bool :=
  match t with
  | TDone | TFail => true
  | TPending => false
  | TChunk _ rest => settles rest
  end.

Definition apology_text : jsstring :=
  js "Sorry, I encountered an error while getting suggestions.".

Definition last_opt {A} (l : list A) : option A :=
  match rev l with
  | [] => None
  | x :: _ => Some x
  end.

Section Consumer.

Variable number_to_string : jsstring -> jsstring.

(** The updater passed to [setMessages] for one parsed line (lines 80-87).
    [None]: the updater throws a [TypeError] ([lastMessage] undefined,
    [parsed] is [null], or [parsed.response] has no string value); React
    rethrows it while rendering. *)
Definition append_response (parsed : jvalue) (prev : list Message) : option (list Message) :=
  match last_opt prev with
  | None => None
  | Some lastMessage =>
      if role_eqb (msg_role lastMessage) Assistant then
        match get_response parsed with
        | None => None
        | Some v =>
            match jsval_to_string number_to_string v with
            | None => None
            | Some text =>
                Some (removelast prev ++
                      [mkMessage (msg_role lastMessage) (content lastMessage ++ text)
                         (timestamp lastMessage)])
            end
        end
      else Some prev
  end.

(** [for (const line of lines)]: a blank line is ignored, a line that
    [JSON.parse] rejects is logged and skipped (lines 76-92). *)
Fixpoint apply_lines (ms : list Message) (lines : list jsstring) : option (list Message) :=
  match lines with
  | [] => Some ms
  | line :: rest =>
      if trim_nonempty line then
        match json_parse line with
        | None => apply_lines ms rest
        | Some parsed =>
            match append_response parsed ms with
            | Some ms' => apply_lines ms' rest
            | None => None
            end
        end
      else apply_lines ms rest
  end.

Inductive loop_result :=
  | LoopDone (ms : list Message)       (* [done]: break *)
  | LoopFailed (ms : list Message)     (* [reader.read()] rejected *)
  | LoopPending (ms : list Message)    (* waiting on a read forever *)
  | LoopCrashed.                       (* an updater threw *)

(** [while (true) { const { done, value } = await reader.read(); ... }]:
    every read is decoded on its own and split on its own. *)
Fixpoint read_loop (ms : list Message) (t : transport) : loop_result :=
  match t with
  | TDone => LoopDone ms
  | TFail => LoopFailed ms
  | TPending => LoopPending ms
  | TChunk value rest =>
      match apply_lines ms (split_nl (utf8_decode value)) with
      | Some ms' => read_loop ms' rest
      | None => LoopCrashed
      end
  end.

(** [handleSubmit]: [contentType] is the prop; [fetch] answers the POST
    with body [{contentType, description: input}]; [t_user], [t_assistant]
    and [t_error] are the three [new Date()] values.  The result is the
    component state once the call has settled ([None]: the component
    crashed on an updater error) and the fate of its promise.  An updater
    error is thrown where React applies the update, not into the read
    loop, which goes on reading: the promise resolves once the reads end
    and never settles when they wait forever. *)
Definition handleSubmit (contentType : jsstring)
    (fetch : jsstring -> jsstring -> fetch_result)
    (t_user t_assistant t_error : Z) (st : chat_state)
    : option chat_state * promise_outcome :=
  if negb (trim_nonempty (input st)) || isLoading st then (Some st, Resolved Undefined)
  else
    let userMessage := mkMessage User (input st) t_user in
    let ms1 := messages st ++ [userMessage] in
    (* catch: append the error message; finally: isLoading := false *)
    let on_error ms :=
      Some (mkChat (ms ++ [mkMessage Assistant apology_text t_error]) [] false) in
    let settled :=
      match fetch contentType (input st) with
      | FetchReject => on_error ms1
      | FetchResponse body =>
          let ms2 := ms1 ++ [mkMessage Assistant [] t_assistant] in
          match body with
          | None => on_error ms2
          | Some t =>
              match read_loop ms2 t with
              | LoopDone ms => Some (mkChat ms [] false)
              | LoopFailed ms => on_error ms
              | LoopPending ms => Some (mkChat ms [] true)
              | LoopCrashed => None
              end
          end
      end in
    let outcome :=
      match fetch contentType (input st) with
      | FetchResponse (Some t) => if settles t then Resolved Undefined else Unsettled
      | _ => Resolved Undefined
      end in
    (settled, outcome).

End Consumer.

(** ** [OllamaService.chatStream]

    One run, driven by what its environment does at its await points:
    [UResponse] ([fetch] resolves; [false]: the body is [null]), [UChunk]
    (a read gives bytes), [UDone] (a read gives [done]), [UFail] (the
    request or a read fails) and [UStop] ([stopStream()] is called on the
    service while this run waits).  Body events before the response are
    not possible and are passed over. *)

Inductive up_event :=
  | UResponse (has_body : bool)
  | UChunk (value : list Z)
  | UDone
  | UFail
  | UStop.

Inductive stream_end :=
  | SCompleted   (* [onComplete]; resolves *)
  | SAborted     (* [AbortError]: logged, resolves *)
  | SFailed      (* [onError]; rethrows *)
  | SPending.    (* still waiting *)

(** [finally { this.abortController = null; }] *)
Definition release (s : service) : service := mkService None (next_controller s).

Definition aborted_is (ab : option nat) (c : nat) : bool :=
  match ab with
  | Some c' => Nat.eqb c' c
  | None => false
  end.

(** The lines of one chunk: each parsed [response] goes to [callback]; a
    parse error or a [TypeError] on [null] is caught and logged. *)
Fixpoint chat_lines (lines : list jsstring) : list jsval :=
  match lines with
  | [] => []
  | line :: rest =>
      if trim_nonempty line then
        match json_parse line with
        | Some parsed =>
            match get_response parsed with
            | Some v => v :: chat_lines rest
            | None => chat_lines rest
            end
        | None => chat_lines rest
        end
      else chat_lines rest
  end.

(** The read loop of the run owning controller [c]: the service state, the
    values passed to [callback] in order, and how the run ended. *)
Fixpoint chat_read_loop (c : nat) (svc : service) (es : list up_event)
    : service * list jsval * stream_end :=
  match es with
  | [] => (svc, [], SPending)
  | UStop :: r =>
      let (svc', ab) := stopStream svc in
      if aborted_is ab c then (release svc', [], SAborted)
      else chat_read_loop c svc' r
  | UChunk value :: r =>
      let ds := chat_lines (split_nl (utf8_decode value)) in
      let '(svc', ds', e) := chat_read_loop c svc r in (svc', ds ++ ds', e)
  | UDone :: _ => (release svc, [], SCompleted)
  | UFail :: _ => (release svc, [], SFailed)
  | UResponse _ :: r => chat_read_loop c svc r
  end.

(** Waiting for [fetch] to resolve. *)
Fixpoint chat_fetch (c : nat) (svc : service) (es : list up_event)
    : service * list jsval * stream_end :=
  match es with
  | [] => (svc, [], SPending)
  | UStop :: r =>
      let (svc', ab) := stopStream svc in
      if aborted_is ab c then (release svc', [], SAborted)
      else chat_fetch c svc' r
  | UResponse true :: r => chat_read_loop c svc r
  | UResponse false :: _ => (release svc, [], SFailed)
  | UFail :: _ => (release svc, [], SFailed)
  | UChunk _ :: r | UDone :: r => chat_fetch c svc r
  end.

(** [this.abortController = new AbortController()], then the request. *)
Definition chatStream (svc : service) (es : list up_event)
    : service * list jsval * stream_end :=
  let c := next_controller svc in
  chat_fetch c (mkService (Some c) (S c)) es.

(** ** [getH5PContentSuggestions]: the prompt *)

Definition nl : jsstring := [10].
Definition indent : jsstring := js "        ".

Definition build_prompt (contentType description : jsstring) : jsstring :=
  js "As an H5P content creation assistant, help me create " ++ contentType
  ++ js " content with the following description: " ++ description ++ js "."
  ++ nl ++ indent ++ nl ++ indent
  ++ prop_to_string (getContentTypePrompt contentType)
  ++ nl ++ indent ++ nl ++ indent
  ++ js "Please provide specific suggestions including:"
  ++ nl ++ indent ++ js "1. Content Structure"
  ++ nl ++ indent ++ js "2. Interactive Elements"
  ++ nl ++ indent ++ js "3. Learning Objectives"
  ++ nl ++ indent ++ js "4. Assessment Strategies"
  ++ nl ++ indent ++ js "5. Technical Implementation Tips"
  ++ nl ++ indent ++ nl ++ indent
  ++ js "Format your response in clear sections with bullet points for easy implementation.".

(** ** The Stream Relay: [POST /api/v1/h5p/chat/suggestions/stream]
    (part_001, lines 36-78), as the trace of what it does upstream and
    downstream. *)

Inductive relay_event :=
  | UpstreamCall (stream : bool) (prompt : jsval)   (* POST [baseUrl]/api/generate *)
  | DownstreamWrite (data : jsstring)                (* [stream.push(data)] *)
  | DownstreamEnd                                    (* [stream.push(null)] *)
  | StatusJson (status : Z) (body : jsstring).       (* [res.status(s).json(b)] *)

Definition nonempty (s : jsstring) : bool :=
  match s with [] => false | _ => true end.

Definition error_body (msg : jsstring) : jsstring :=
  [123] ++ quote_json (js "error") ++ [58] ++ quote_json msg ++ [125].

Section Relay.

Variable number_to_string : jsstring -> jsstring.

(** [svc] is the router's single [OllamaService]; [chat_reply] is
    [response.data.response] of the non-streaming [chat] call ([None]: it
    throws); [es] drives the [chatStream] run.  When [chatStream] fails
    after a write, [res.status(500).json] throws on the sent headers and the
    response is left open. *)
Definition relay_stream (svc : service) (contentType description : jsstring)
    (chat_reply : option jsval) (es : list up_event) : service * list relay_event :=
  if negb (nonempty contentType) || negb (nonempty description) then
    (svc, [StatusJson 400 (error_body (js "Content type and description are required"))])
  else
    let call1 := UpstreamCall false (Val (JStr (build_prompt contentType description))) in
    match chat_reply with
    | None => (svc, [call1; StatusJson 500 (error_body (js "Failed to stream content suggestions"))])
    | Some suggestions =>
        let '(svc', ds, e) := chatStream svc es in
        let writes := map (fun d => DownstreamWrite (response_line number_to_string d)) ds in
        (svc', call1 :: UpstreamCall true suggestions :: writes ++
               match e with
               | SCompleted | SAborted => [DownstreamEnd]
               | SFailed =>
                   match ds with
                   | [] => [StatusJson 500 (error_body (js "Failed to stream content suggestions"))]
                   | _ => []
                   end
               | SPending => []
               end)
    end.

End Relay.

(** ** [POST /api/v1/h5p/chat/suggestions] (part_001, lines 8-33) *)

Section Suggestions.

Variable number_to_string : jsstring -> jsstring.

(** [JSON.stringify({ [key]: v })]: an undefined property is left out. *)
Definition object1 (key : jsstring) (v : jsval) : jsstring :=
  match v with
  | Undefined => js "{}"
  | Val x => [123] ++ quote_json key ++ [58] ++ json_stringify number_to_string x ++ [125]
  end.

(** [chat_reply] is [response.response] of the [chat] call made by
    [getH5PContentSuggestions] ([None]: [chat] throws). *)
Definition suggestions_route (contentType description : jsstring) (chat_reply : option jsval)
    : list relay_event :=
  if negb (nonempty contentType) || negb (nonempty description) then
    [StatusJson 400 (error_body (js "Content type and description are required"))]
  else
    UpstreamCall false (Val (JStr (build_prompt contentType description)))
    :: match chat_reply with
       | None => [StatusJson 500 (error_body (js "Failed to get content suggestions"))]
       | Some suggestions => [StatusJson 200 (object1 (js "suggestions") suggestions)]
       end.

End Suggestions.

(** The response body as the consumer reads it when every write reaches it
    in a read of its own. *)
Fixpoint reads_per_write (evs : list relay_event) : transport :=
  match evs with
  | [] => TPending
  | UpstreamCall _ _ :: r => reads_per_write r
  | DownstreamWrite d :: r => TChunk (utf8_encode d) (reads_per_write r)
  | DownstreamEnd :: _ => TDone
  | StatusJson _ body :: _ => TChunk (utf8_encode body) TDone
  end.

(** Reads of the given byte chunks, then end of stream. *)
Fixpoint reads_then_done (chunks : list (list Z)) : transport :=
  match chunks with
  | [] => TDone
  | b :: r => TChunk b (reads_then_done r)
  end.

(** ** Inputs used by the properties *)

(** The upstream's line [{"response":"<s>"}] and its newline. *)
Definition upstream_line (s : string) : jsstring :=
  js "{" ++ [34] ++ js "response" ++ [34] ++ js ":" ++ [34] ++ js s ++ [34] ++ js "}" ++ [10].

Definition photosynthesis_upstream : list up_event :=
  [UResponse true;
   UChunk (utf8_encode (upstream_line "Struct"));
   UChunk (utf8_encode (upstream_line "ure: "));
   UChunk (utf8_encode (upstream_line "..."));
   UDone].

(** The consumer's [fetch], answered by the relay (one read per write). *)
Definition relay_fetch (nts : jsstring -> jsstring) (svc : service)
    (chat_reply : option jsval) (es : list up_event) : jsstring -> jsstring -> fetch_result :=
  fun ct d => FetchResponse (Some (reads_per_write (snd (relay_stream nts svc ct d chat_reply es)))).

(** The record [JSON.stringify({response: d})] without its newline. *)
Definition record_text (d : jsstring) : jsstring :=
  [123] ++ quote_json (js "response") ++ [58] ++ quote_json d ++ [125].

(** The bytes of one read that holds the whole records of the deltas [g],
    each pushed as its own string (Node encodes each push as UTF-8). *)
Definition group_bytes (nts : jsstring -> jsstring) (g : list jsstring) : list Z :=
  flat_map (fun d => utf8_encode (response_line nts (Val (JStr d)))) g.

(** Upstream reads, each holding the whole records of one group of
    deltas. *)
Definition record_reads (groups : list (list jsstring)) : list up_event :=
  map UChunk (map (fun g => flat_map (fun d => utf8_encode (record_text d ++ [10])) g) groups).

(** The record of the delta ["ab"] split after [{"response":] into two
    reads. *)
Definition split_record_reads : transport :=
  let line := response_line (fun l => l) (Val (JStr (js "ab"))) in
  reads_then_done [utf8_encode (firstn 12 line); utf8_encode (skipn 12 line)].

(** The record [{"<k>": "<d>"}] of one string field, without a newline. *)
(** The line [{"response":{"toString":1}}]. *)
Definition toString_record : jsstring :=
  [123] ++ quote_json (js "response") ++ [58]
  ++ [123] ++ quote_json (js "toString") ++ [58] ++ js "1" ++ [125] ++ [125].

Definition field_record (k d : jsstring) : jsstring :=
  [123] ++ quote_json k ++ [58] ++ quote_json d ++ [125].

(** A code unit. *)
Definition in_range (c : Z) : Prop := 0 <= c < 0x10000.

(** A code unit that is neither a control character nor a surrogate. *)
Definition plain (c : Z) : Prop := 32 <= c < 0xD800 \/ 0xE000 <= c < 0x10000.

(** Well-formed UTF-16: code units in range, surrogates only in pairs. *)
Inductive wf16 : jsstring -> Prop :=
  | wf16_nil : wf16 []
  | wf16_bmp : forall c s, (0 <= c < 0xD800 \/ 0xE000 <= c < 0x10000) -> wf16 s -> wf16 (c :: s)
  | wf16_pair : forall h l s, is_high h = true -> is_low l = true -> wf16 s -> wf16 (h :: l :: s).

Definition cons_res (c : Z) (o : option (jsstring * jsstring)) : option (jsstring * jsstring) :=
  match o with
  | Some (str, rest) => Some (c :: str, rest)
  | None => None
  end.

(** * Properties *)

(** Number of upstream generation calls in a relay trace. *)
Definition upstream_calls (evs : list relay_event) : nat :=
  List.length (filter (fun e => match e with UpstreamCall _ _ => true | _ => false end) evs).

Lemma jsstring_eqb_eq : forall a b, jsstring_eqb a b = true <-> a = b.
Proof.
  induction a as [|x a IH]; destruct b as [|y b]; simpl; split; intro H;
    try congruence.
  - apply andb_true_iff in H as [H1 H2]. apply Z.eqb_eq in H1.
    apply IH in H2. congruence.
  - inversion H; subst. apply andb_true_iff. split.
    + apply Z.eqb_refl.
    + apply IH. reflexivity.
Qed.

(** ** Cancellation *)

Lemma release_clears : forall s, abortController (release s) = None.
Proof. reflexivity. Qed.

Lemma stopStream_owned : forall s c,
  abortController s = Some c -> stopStream s = (release s, Some c).
Proof. intros [a n] c H; simpl in *; subst; reflexivity. Qed.

Lemma aborted_is_self : forall c, aborted_is (Some c) c = true.
Proof. intro c. apply Nat.eqb_refl. Qed.

Lemma chat_read_loop_owner : forall es c svc svc' ds e,
  abortController svc = Some c ->
  chat_read_loop c svc es = (svc', ds, e) ->
  e <> SPending -> abortController svc' = None.
Proof.
  induction es as [|ev es IH]; intros c svc svc' ds e Hc Hrun Hend; simpl in Hrun.
  - inversion Hrun; subst; congruence.
  - destruct ev as [b|v| | |].
    + eapply IH; eauto.
    + destruct (chat_read_loop c svc es) as [[s1 d1] e1] eqn:E.
      inversion Hrun; subst. eapply IH; eauto.
    + inversion Hrun; reflexivity.
    + inversion Hrun; reflexivity.
    + rewrite (stopStream_owned _ _ Hc), aborted_is_self in Hrun.
      inversion Hrun; reflexivity.
Qed.

Lemma chat_fetch_owner : forall es c svc svc' ds e,
  abortController svc = Some c ->
  chat_fetch c svc es = (svc', ds, e) ->
  e <> SPending -> abortController svc' = None.
Proof.
  induction es as [|ev es IH]; intros c svc svc' ds e Hc Hrun Hend; simpl in Hrun.
  - inversion Hrun; subst; congruence.
  - destruct ev as [[|]|v| | |].
    + eapply chat_read_loop_owner; eauto.
    + inversion Hrun; reflexivity.
    + eapply IH; eauto.
    + eapply IH; eauto.
    + inversion Hrun; reflexivity.
    + rewrite (stopStream_owned _ _ Hc), aborted_is_self in Hrun.
      inversion Hrun; reflexivity.
Qed.

Lemma chat_read_loop_stop : forall es1 es2 c svc,
  abortController svc = Some c ->
  snd (fst (chat_read_loop c svc (es1 ++ UStop :: es2)))
    = snd (fst (chat_read_loop c svc es1))
  /\ snd (chat_read_loop c svc (es1 ++ UStop :: es2)) <> SPending.
Proof.
  induction es1 as [|ev es1 IH]; intros es2 c svc Hc; simpl.
  - rewrite (stopStream_owned _ _ Hc), aborted_is_self. simpl.
    split; [reflexivity | discriminate].
  - destruct ev as [b|v| | |]; simpl.
    + apply IH; assumption.
    + destruct (IH es2 c svc Hc) as [H1 H2].
      destruct (chat_read_loop c svc (es1 ++ UStop :: es2)) as [[s1 d1] e1].
      destruct (chat_read_loop c svc es1) as [[s2 d2] e2].
      simpl in *. subst. split; [reflexivity | assumption].
    + split; [reflexivity | discriminate].
    + split; [reflexivity | discriminate].
    + rewrite (stopStream_owned _ _ Hc), aborted_is_self. simpl.
      split; [reflexivity | discriminate].
Qed.

Lemma chat_fetch_stop : forall es1 es2 c svc,
  abortController svc = Some c ->
  snd (fst (chat_fetch c svc (es1 ++ UStop :: es2)))
    = snd (fst (chat_fetch c svc es1))
  /\ snd (chat_fetch c svc (es1 ++ UStop :: es2)) <> SPending.
Proof.
  induction es1 as [|ev es1 IH]; intros es2 c svc Hc; simpl.
  - rewrite (stopStream_owned _ _ Hc), aborted_is_self. simpl.
    split; [reflexivity | discriminate].
  - destruct ev as [[|]|v| | |]; simpl.
    + apply chat_read_loop_stop; assumption.
    + split; [reflexivity | discriminate].
    + apply IH; assumption.
    + apply IH; assumption.
    + split; [reflexivity | discriminate].
    + rewrite (stopStream_owned _ _ Hc), aborted_is_self. simpl.
      split; [reflexivity | discriminate].
Qed.

(** C4: once [stopStream()] is called while a [chatStream] run waits, the
    run ends and [callback] receives nothing more: the values passed to it
    are exactly those passed before the call, whatever the aborted
    transport delivers afterwards. *)
Theorem chatStream_stop_freezes_output : forall svc es1 es2,
  snd (fst (chatStream svc (es1 ++ UStop :: es2))) = snd (fst (chatStream svc es1))
  /\ snd (chatStream svc (es1 ++ UStop :: es2)) <> SPending.
Proof.
  intros svc es1 es2. unfold chatStream. apply chat_fetch_stop. reflexivity.
Qed.

(** C5: a second [stopStream()] after a first one aborts nothing and leaves
    the service as it is; so does a [stopStream()] after a run that has
    ended (completed, aborted or failed).  [stopStream] is total: it
    never throws. *)
Theorem stopStream_idempotent_after_end :
  (forall s, stopStream (fst (stopStream s)) = (fst (stopStream s), None))
  /\ (forall svc es svc' ds e,
        chatStream svc es = (svc', ds, e) -> e <> SPending ->
        stopStream svc' = (svc', None)).
Proof.
  split.
  - intros [[c|] n]; reflexivity.
  - intros svc es svc' ds e Hrun Hend. unfold chatStream in Hrun.
    assert (H : abortController svc' = None)
      by (eapply chat_fetch_owner; [| exact Hrun | exact Hend]; reflexivity).
    destruct svc' as [a n]; simpl in H; subst; reflexivity.
Qed.

Lemma stopStream_idempotent_after_end_witness :
  chatStream (mkService None 0) [UResponse true; UDone]
    = (mkService None 1, [], SCompleted)
  /\ SCompleted <> SPending
  /\ stopStream (mkService None 1) = (mkService None 1, None).
Proof.
  split; [reflexivity|]. split; [discriminate|].
  exact (proj2 stopStream_idempotent_after_end (mkService None 0)
           [UResponse true; UDone] (mkService None 1) [] SCompleted
           eq_refl ltac:(discriminate)).
Defined.

(** ** [getContentTypePrompt] *)

(** C10 (code_bug): for the content type ["toString"] the lookup finds
    [Object.prototype.toString], a function, which is truthy and is
    returned: not a string. *)
Theorem getContentTypePrompt_inherited_key :
  getContentTypePrompt (js "toString") = PFun (js "toString")
  /\ forall s, getContentTypePrompt (js "toString") <> PStr s.
Proof.
  split; [reflexivity | intros s H; vm_compute in H; discriminate].
Qed.

(** Away from the keys of [Object.prototype] the lookup is total with the
    fixed fallback. *)
Lemma getContentTypePrompt_own_or_default : forall k,
  assoc k object_prototype = None ->
  getContentTypePrompt k =
    match assoc k content_type_prompts with
    | Some s => PStr s
    | None => PStr default_prompt
    end.
Proof.
  intros k H. unfold getContentTypePrompt, lookup_prop.
  destruct (assoc k content_type_prompts) as [s|] eqn:E.
  - assert (Hs : truthy_prop (PStr s) = true).
    { unfold content_type_prompts in E. simpl in E.
      repeat match type of E with
             | context [if ?b then _ else _] => destruct b
             end; inversion E; reflexivity. }
    rewrite Hs. reflexivity.
  - rewrite H. reflexivity.
Qed.

(** ** The consumer's submit guard *)

(** C6 (as the code has it): a submit while [isLoading] is set, or with
    blank input, returns at once with the state unchanged, and its promise
    resolves with [undefined]; the promise of an accepted submit whose
    request has ended (the [fetch] rejected, the body is [null], or the
    reads came to an end) resolves with [undefined] too. *)
Theorem handleSubmit_busy_is_silent_noop : forall nts ct fetch fetch' t1 t2 t3 ms inp busy st,
  busy = true \/ trim_nonempty inp = false ->
  (forall t, fetch' ct (input st) = FetchResponse (Some t) -> settles t = true) ->
  handleSubmit nts ct fetch t1 t2 t3 (mkChat ms inp busy)
    = (Some (mkChat ms inp busy), Resolved Undefined)
  /\ snd (handleSubmit nts ct fetch' t1 t2 t3 st) = Resolved Undefined.
Proof.
  intros nts ct fetch fetch' t1 t2 t3 ms inp busy st Hguard Hend. split.
  - unfold handleSubmit. cbn [input isLoading].
    destruct Hguard as [-> | ->]; [rewrite orb_true_r|]; reflexivity.
  - unfold handleSubmit.
    destruct (negb (trim_nonempty (input st)) || isLoading st); [reflexivity|].
    cbn [snd]. destruct (fetch' ct (input st)) as [|[t|]] eqn:F; try reflexivity.
    rewrite (Hend t eq_refl). reflexivity.
Qed.

Lemma handleSubmit_busy_is_silent_noop_witness :
  (true = true \/ trim_nonempty (js "more") = false)
  /\ (forall t, (fun _ _ => FetchResponse (Some (TChunk [] TDone))) (js "H5P.Course")
                 (input (mkChat [] (js "hi") false)) = FetchResponse (Some t) -> settles t = true)
  /\ handleSubmit (fun l => l) (js "H5P.Course") (fun _ _ => FetchReject) 3 4 5
       (mkChat [mkMessage User (js "hi") 1] (js "more") true)
     = (Some (mkChat [mkMessage User (js "hi") 1] (js "more") true), Resolved Undefined)
  /\ snd (handleSubmit (fun l => l) (js "H5P.Course") (fun _ _ => FetchResponse (Some (TChunk [] TDone)))
            3 4 5 (mkChat [] (js "hi") false)) = Resolved Undefined.
Proof.
  assert (G : true = true \/ trim_nonempty (js "more") = false) by (left; reflexivity).
  assert (E : forall t, (fun _ _ => FetchResponse (Some (TChunk [] TDone))) (js "H5P.Course")
                 (input (mkChat [] (js "hi") false)) = FetchResponse (Some t) -> settles t = true).
  { intros t H. inversion H. reflexivity. }
  split; [exact G|]. split; [exact E|].
  exact (handleSubmit_busy_is_silent_noop (fun l => l) (js "H5P.Course") (fun _ _ => FetchReject)
           (fun _ _ => FetchResponse (Some (TChunk [] TDone))) 3 4 5 [mkMessage User (js "hi") 1]
           (js "more") true (mkChat [] (js "hi") false) G E).
Defined.

(** C6 fails as stated: the rejected call is not surfaced; its caller gets
    what the caller of an accepted call gets. *)
Lemma handleSubmit_busy_not_surfaced :
  handleSubmit (fun l => l) (js "H5P.Course") (fun _ _ => FetchReject) 3 4 5
    (mkChat [mkMessage User (js "hi") 1; mkMessage Assistant (js "Str") 2] (js "more") true)
  = (Some (mkChat [mkMessage User (js "hi") 1; mkMessage Assistant (js "Str") 2] (js "more") true),
     Resolved Undefined)
  /\ snd (handleSubmit (fun l => l) (js "H5P.Course") (fun _ _ => FetchReject) 3 4 5
            (mkChat [] (js "more") false)) = Resolved Undefined.
Proof. split; reflexivity. Qed.

(** ** Frame of one fragment *)

Lemma last_opt_snoc : forall {A} (l : list A) x, last_opt (l ++ [x]) = Some x.
Proof. intros. unfold last_opt. rewrite rev_app_distr. reflexivity. Qed.

Lemma last_opt_nil_or_snoc : forall {A} (l : list A),
  l = [] \/ exists l' x, l = l' ++ [x].
Proof.
  intros A l. destruct l as [|a l]; [left; reflexivity | right].
  destruct (exists_last (l := a :: l) ltac:(discriminate)) as [l' [x E]].
  exists l', x. exact E.
Qed.

(** C9: the updater of one parsed line, on a log [ms ++ [m]], leaves [ms]
    and the length, role and timestamp of the last message as they are and
    only extends the last message's content; when the last message is a
    user message the log is returned unchanged. *)
Theorem append_response_frame : forall nts parsed ms m,
  (msg_role m = User -> append_response nts parsed (ms ++ [m]) = Some (ms ++ [m]))
  /\ (forall next, append_response nts parsed (ms ++ [m]) = Some next ->
        exists suffix,
          next = ms ++ [mkMessage (msg_role m) (content m ++ suffix) (timestamp m)]).
Proof.
  intros nts parsed ms m. unfold append_response. rewrite last_opt_snoc.
  split.
  - intro H. rewrite H. reflexivity.
  - intros next H. destruct (role_eqb (msg_role m) Assistant) eqn:R.
    + destruct (get_response parsed) as [v|]; [|discriminate].
      destruct (jsval_to_string nts v) as [text|]; [|discriminate].
      inversion H; subst. rewrite removelast_last.
      exists text. reflexivity.
    + inversion H; subst. exists [].
      destruct m as [r c t]. simpl. rewrite app_nil_r. reflexivity.
Qed.

Lemma append_response_frame_witness :
  msg_role (mkMessage User (js "q") 1) = User
  /\ append_response (fun l => l) (JObj [(js "response", JStr (js "x"))])
       [mkMessage Assistant (js "a") 0; mkMessage User (js "q") 1]
     = Some [mkMessage Assistant (js "a") 0; mkMessage User (js "q") 1].
Proof.
  split; [reflexivity|].
  exact (proj1 (append_response_frame (fun l => l) (JObj [(js "response", JStr (js "x"))])
                  [mkMessage Assistant (js "a") 0] (mkMessage User (js "q") 1)) eq_refl).
Defined.

(** ** The relay *)

Lemma relay_stream_shape : forall nts svc ct d x es,
  nonempty ct = true -> nonempty d = true ->
  snd (relay_stream nts svc ct d (Some x) es) =
    UpstreamCall false (Val (JStr (build_prompt ct d)))
    :: UpstreamCall true x
    :: map (fun v => DownstreamWrite (response_line nts v)) (snd (fst (chatStream svc es)))
    ++ match snd (chatStream svc es) with
       | SCompleted | SAborted => [DownstreamEnd]
       | SFailed =>
           match snd (fst (chatStream svc es)) with
           | [] => [StatusJson 500 (error_body (js "Failed to stream content suggestions"))]
           | _ => []
           end
       | SPending => []
       end.
Proof.
  intros nts svc ct d x es Hct Hd. unfold relay_stream. rewrite Hct, Hd. simpl.
  destruct (chatStream svc es) as [[s ds] e]. reflexivity.
Qed.

(** C2 (code_bug): for the request [{contentType: "H5P.Course",
    description: "intro to photosynthesis"}] the relay makes two upstream
    calls: first the non-streaming one of [getH5PContentSuggestions] with
    the built prompt, then the streaming one with that call's answer as
    its prompt. *)
Theorem relay_stream_two_upstream_calls : forall nts svc x es,
  firstn 2 (snd (relay_stream nts svc (js "H5P.Course") (js "intro to photosynthesis") (Some x) es))
    = [UpstreamCall false (Val (JStr (build_prompt (js "H5P.Course") (js "intro to photosynthesis"))));
       UpstreamCall true x]
  /\ upstream_calls (snd (relay_stream nts svc (js "H5P.Course") (js "intro to photosynthesis") (Some x) es))
     = 2%nat.
Proof.
  intros nts svc x es.
  rewrite relay_stream_shape by reflexivity.
  split; [reflexivity|].
  unfold upstream_calls. simpl. f_equal. f_equal.
  rewrite filter_app, length_app.
  assert (Hw : forall l : list jsval,
            filter (fun e => match e with UpstreamCall _ _ => true | _ => false end)
              (map (fun v => DownstreamWrite (response_line nts v)) l) = []).
  { induction l; simpl; auto. }
  rewrite Hw. simpl.
  destruct (snd (chatStream svc es)); [reflexivity|reflexivity| |reflexivity].
  destruct (snd (fst (chatStream svc es))); reflexivity.
Qed.

(** ** End to end *)

(** C7: the request [{contentType: "H5P.Course", description: "intro to
    photosynthesis"}] against an upstream that emits the three lines and
    closes leaves exactly two messages, the user's and one assistant
    message with text ["Structure: ..."]. *)
Theorem photosynthesis_end_to_end : forall nts svc x t1 t2 t3,
  fst (handleSubmit nts (js "H5P.Course") (relay_fetch nts svc (Some x) photosynthesis_upstream)
         t1 t2 t3 (mkChat [] (js "intro to photosynthesis") false))
  = Some (mkChat [mkMessage User (js "intro to photosynthesis") t1;
                  mkMessage Assistant (js "Structure: ...") t2] [] false).
Proof. intros. vm_compute. reflexivity. Qed.

(** ** Failures and the loading flag *)

Lemma append_response_snoc : forall nts parsed ms m next,
  append_response nts parsed (ms ++ [m]) = Some next ->
  exists suffix, next = ms ++ [mkMessage (msg_role m) (content m ++ suffix) (timestamp m)].
Proof.
  intros nts parsed ms m next H. unfold append_response in H.
  rewrite last_opt_snoc in H.
  destruct (role_eqb (msg_role m) Assistant) eqn:R.
  - destruct (get_response parsed) as [v|]; [|discriminate].
    destruct (jsval_to_string nts v) as [text|]; [|discriminate].
    inversion H; subst. rewrite removelast_last.
    exists text. reflexivity.
  - inversion H; subst. exists [].
    destruct m as [r c t]. simpl. rewrite app_nil_r. reflexivity.
Qed.

Lemma apply_lines_snoc : forall nts ls ms m next,
  apply_lines nts (ms ++ [m]) ls = Some next -> exists m', next = ms ++ [m'].
Proof.
  induction ls as [|l ls IH]; intros ms m next H; simpl in H.
  - inversion H; eauto.
  - destruct (trim_nonempty l); [|eapply IH; eauto].
    destruct (json_parse l) as [p|]; [|eapply IH; eauto].
    destruct (append_response nts p (ms ++ [m])) as [ms'|] eqn:E; [|discriminate].
    destruct (append_response_snoc _ _ _ _ _ E) as [suf ->].
    eapply IH; eauto.
Qed.

Lemma read_loop_snoc : forall nts t ms m,
  match read_loop nts (ms ++ [m]) t with
  | LoopDone r | LoopFailed r | LoopPending r => exists m', r = ms ++ [m']
  | LoopCrashed => True
  end.
Proof.
  induction t as [| | |v t IH]; intros ms m; simpl; eauto.
  destruct (apply_lines nts (ms ++ [m]) (split_nl (utf8_decode v))) as [ms'|] eqn:E; [|exact I].
  destruct (apply_lines_snoc _ _ _ _ _ E) as [m' ->]. apply IH.
Qed.

(** A submit with non-blank input while not loading is taken: the log
    grows by the user message first. *)
Lemma handleSubmit_accepted : forall nts ct fetch t1 t2 t3 ms inp,
  trim_nonempty inp = true ->
  match fst (handleSubmit nts ct fetch t1 t2 t3 (mkChat ms inp false)) with
  | Some st => exists rest, messages st = ms ++ mkMessage User inp t1 :: rest
  | None => True
  end.
Proof.
  intros nts ct fetch t1 t2 t3 ms inp H. unfold handleSubmit. simpl. rewrite H. simpl.
  destruct (fetch ct inp) as [|[t|]]; simpl.
  - eexists. rewrite <- app_assoc. reflexivity.
  - pose proof (read_loop_snoc nts t (ms ++ [mkMessage User inp t1]) (mkMessage Assistant [] t2)) as R.
    destruct (read_loop nts ((ms ++ [mkMessage User inp t1]) ++ [mkMessage Assistant [] t2]) t)
      as [r|r|r|]; simpl; try exact I;
      destruct R as [m' ->]; eexists; rewrite <- !app_assoc; reflexivity.
  - eexists. rewrite <- !app_assoc. reflexivity.
Qed.

(** ** Chunk boundaries

    Bit operations of the UTF-8 coder as arithmetic. *)

Lemma land_63 : forall x, Z.land x 63 = x mod 64. Proof. intro x. exact (Z.land_ones x 6 ltac:(lia)). Qed.
Lemma land_31 : forall x, Z.land x 31 = x mod 32. Proof. intro x. exact (Z.land_ones x 5 ltac:(lia)). Qed.
Lemma land_15 : forall x, Z.land x 15 = x mod 16. Proof. intro x. exact (Z.land_ones x 4 ltac:(lia)). Qed.
Lemma land_7 : forall x, Z.land x 7 = x mod 8. Proof. intro x. exact (Z.land_ones x 3 ltac:(lia)). Qed.
Lemma land_1023 : forall x, Z.land x 1023 = x mod 1024. Proof. intro x. exact (Z.land_ones x 10 ltac:(lia)). Qed.
Lemma shiftl_mul : forall x n, 0 <= n -> Z.shiftl x n = x * 2 ^ n.
Proof. intros. apply Z.shiftl_mul_pow2. assumption. Qed.

Lemma lor_disjoint : forall x y n, 0 <= n -> 0 <= y < 2 ^ n ->
  Z.lor (x * 2 ^ n) y = x * 2 ^ n + y.
Proof.
  intros x y n Hn Hy.
  rewrite <- Z.lxor_lor, <- Z.add_nocarry_lxor; [reflexivity| |];
  apply Z.bits_inj'; intros i Hi; rewrite Z.land_spec, Z.bits_0;
  (destruct (Z.lt_ge_cases i n) as [Hl|Hl];
   [rewrite Z.mul_pow2_bits_low by assumption; reflexivity
   | rewrite <- (Z.mod_small y (2 ^ n)) by assumption;
     rewrite Z.mod_pow2_bits_high by lia; apply andb_false_r]).
Qed.

Ltac zbool :=
  repeat match goal with
  | H : (_ && _) = true |- _ => apply andb_true_iff in H; destruct H
  | H : (_ && _) = false |- _ => apply andb_false_iff in H; destruct H
  | H : (_ || _) = true |- _ => apply orb_true_iff in H; destruct H
  | H : (_ || _) = false |- _ => apply orb_false_iff in H; destruct H
  | H : (_ <=? _) = true |- _ => apply Z.leb_le in H
  | H : (_ <=? _) = false |- _ => apply Z.leb_gt in H
  | H : (_ =? _) = true |- _ => apply Z.eqb_eq in H
  | H : (_ =? _) = false |- _ => apply Z.eqb_neq in H
  | H : (_ <? _) = true |- _ => apply Z.ltb_lt in H
  | H : (_ <? _) = false |- _ => apply Z.ltb_ge in H
  | H : negb _ = true |- _ => apply negb_true_iff in H
  | H : negb _ = false |- _ => apply negb_false_iff in H
  end.

Ltac zlia := Z.div_mod_to_equations; lia.

Ltac split_ifs :=
  repeat (match goal with
          | |- context [if ?c then _ else _] => let E := fresh "E" in destruct c eqn:E
          end; zbool; try (exfalso; zlia)).

Lemma shiftr_6 : forall x, Z.shiftr x 6 = x / 64. Proof. intro x. exact (Z.shiftr_div_pow2 x 6 ltac:(lia)). Qed.
Lemma shiftr_12 : forall x, Z.shiftr x 12 = x / 4096. Proof. intro x. exact (Z.shiftr_div_pow2 x 12 ltac:(lia)). Qed.
Lemma shiftr_18 : forall x, Z.shiftr x 18 = x / 262144. Proof. intro x. exact (Z.shiftr_div_pow2 x 18 ltac:(lia)). Qed.
Lemma shiftr_10 : forall x, Z.shiftr x 10 = x / 1024. Proof. intro x. exact (Z.shiftr_div_pow2 x 10 ltac:(lia)). Qed.
Lemma shiftr_8 : forall x, Z.shiftr x 8 = x / 256. Proof. intro x. exact (Z.shiftr_div_pow2 x 8 ltac:(lia)). Qed.
Lemma shiftr_4 : forall x, Z.shiftr x 4 = x / 16. Proof. intro x. exact (Z.shiftr_div_pow2 x 4 ltac:(lia)). Qed.
Lemma shiftl_10 : forall x, Z.shiftl x 10 = x * 1024. Proof. intro x. exact (Z.shiftl_mul_pow2 x 10 ltac:(lia)). Qed.

Lemma lor_192 : forall y, 0 <= y < 64 -> Z.lor 192 y = 192 + y.
Proof. intros y H. exact (lor_disjoint 3 y 6 ltac:(lia) H). Qed.
Lemma lor_128 : forall y, 0 <= y < 64 -> Z.lor 128 y = 128 + y.
Proof. intros y H. exact (lor_disjoint 2 y 6 ltac:(lia) H). Qed.
Lemma lor_224 : forall y, 0 <= y < 32 -> Z.lor 224 y = 224 + y.
Proof. intros y H. exact (lor_disjoint 7 y 5 ltac:(lia) H). Qed.
Lemma lor_240 : forall y, 0 <= y < 16 -> Z.lor 240 y = 240 + y.
Proof. intros y H. exact (lor_disjoint 15 y 4 ltac:(lia) H). Qed.
Lemma lor_shift6 : forall x y, 0 <= y < 64 -> Z.lor (Z.shiftl x 6) y = x * 64 + y.
Proof. intros x y H. rewrite shiftl_mul by lia. exact (lor_disjoint x y 6 ltac:(lia) H). Qed.

Ltac bits_to_arith :=
  rewrite ?land_63, ?land_31, ?land_15, ?land_7, ?land_1023,
          ?shiftr_6, ?shiftr_12, ?shiftr_18, ?shiftr_10, ?shiftr_8, ?shiftr_4, ?shiftl_10.

(** The decoder, one byte at a time. *)

Lemma dec_run_cons : forall d b r,
  dec_run d (b :: r) = let (o, d') := dec_step d b in o ++ dec_run d' r.
Proof. reflexivity. Qed.

Lemma dec_step_init : forall b, dec_step dec_init b = dec_lead b.
Proof. reflexivity. Qed.

Lemma dec_lead_1 : forall b, 0 <= b <= 0x7F -> dec_lead b = ([b], dec_init).
Proof. intros b H. unfold dec_lead. split_ifs. reflexivity. Qed.

Lemma dec_lead_2 : forall b, 0xC2 <= b <= 0xDF ->
  dec_lead b = ([], mkDec 1 0 (Z.land b 0x1F) 0x80 0xBF).
Proof. intros b H. unfold dec_lead. split_ifs. reflexivity. Qed.

Lemma dec_lead_3 : forall b, 0xE0 <= b <= 0xEF ->
  dec_lead b = ([], mkDec 2 0 (Z.land b 0xF)
                      (if b =? 0xE0 then 0xA0 else 0x80) (if b =? 0xED then 0x9F else 0xBF)).
Proof. intros b H. unfold dec_lead. split_ifs; reflexivity. Qed.

Lemma dec_lead_4 : forall b, 0xF0 <= b <= 0xF4 ->
  dec_lead b = ([], mkDec 3 0 (Z.land b 0x7)
                      (if b =? 0xF0 then 0x90 else 0x80) (if b =? 0xF4 then 0x8F else 0xBF)).
Proof. intros b H. unfold dec_lead. split_ifs; reflexivity. Qed.

Lemma dec_step_last : forall d b,
  bytes_needed d <> 0 -> lower_boundary d <= b <= upper_boundary d ->
  bytes_seen d + 1 = bytes_needed d ->
  dec_step d b = ([Z.lor (Z.shiftl (code_point d) 6) (Z.land b 0x3F)], dec_init).
Proof. intros d b H1 H2 H3. unfold dec_step. split_ifs. reflexivity. Qed.

Lemma dec_step_mid : forall d b,
  bytes_needed d <> 0 -> lower_boundary d <= b <= upper_boundary d ->
  bytes_seen d + 1 <> bytes_needed d ->
  dec_step d b = ([], mkDec (bytes_needed d) (bytes_seen d + 1)
                        (Z.lor (Z.shiftl (code_point d) 6) (Z.land b 0x3F)) 0x80 0xBF).
Proof. intros d b H1 H2 H3. unfold dec_step. split_ifs. reflexivity. Qed.

Ltac dec_fields := cbn [bytes_needed bytes_seen code_point lower_boundary upper_boundary].

(** Decoding the UTF-8 form of a scalar value gives it back and leaves the
    decoder in its initial state. *)
Lemma dec_run_cp : forall cp rest,
  (0 <= cp < 0xD800 \/ 0xE000 <= cp <= 0x10FFFF) ->
  dec_run dec_init (utf8_encode_cp cp ++ rest) = cp :: dec_run dec_init rest.
Proof.
  intros cp rest Hcp. unfold utf8_encode_cp. bits_to_arith.
  split_ifs.
  - cbn [app]. rewrite dec_run_cons, dec_step_init, dec_lead_1 by lia. reflexivity.
  - rewrite lor_192, lor_128 by zlia.
    remember (192 + cp / 64) as b1 eqn:H1. remember (128 + cp mod 64) as b2 eqn:H2.
    cbn [app]. rewrite dec_run_cons, dec_step_init, dec_lead_2 by zlia. cbv beta iota.
    rewrite dec_run_cons, dec_step_last by (dec_fields; zlia). cbv beta iota.
    dec_fields. bits_to_arith. rewrite lor_shift6 by zlia.
    cbn [app]. f_equal. subst. zlia.
  - rewrite lor_224, !lor_128 by zlia.
    remember (224 + cp / 4096) as b1 eqn:H1. remember (128 + (cp / 64) mod 64) as b2 eqn:H2.
    remember (128 + cp mod 64) as b3 eqn:H3.
    cbn [app]. rewrite dec_run_cons, dec_step_init, dec_lead_3 by zlia. cbv beta iota.
    rewrite dec_run_cons, dec_step_mid
      by (dec_fields; try split_ifs; zlia). cbv beta iota.
    rewrite dec_run_cons, dec_step_last by (dec_fields; zlia). cbv beta iota.
    dec_fields. bits_to_arith. rewrite !lor_shift6 by zlia.
    cbn [app]. f_equal. subst. zlia.
  - rewrite lor_240, !lor_128 by zlia.
    remember (240 + cp / 262144) as b1 eqn:H1. remember (128 + (cp / 4096) mod 64) as b2 eqn:H2.
    remember (128 + (cp / 64) mod 64) as b3 eqn:H3. remember (128 + cp mod 64) as b4 eqn:H4.
    cbn [app]. rewrite dec_run_cons, dec_step_init, dec_lead_4 by zlia. cbv beta iota.
    rewrite dec_run_cons, dec_step_mid
      by (dec_fields; try split_ifs; zlia). cbv beta iota.
    rewrite dec_run_cons, dec_step_mid by (dec_fields; zlia). cbv beta iota.
    rewrite dec_run_cons, dec_step_last by (dec_fields; zlia). cbv beta iota.
    dec_fields. bits_to_arith. rewrite !lor_shift6 by zlia.
    cbn [app]. f_equal. subst. zlia.
Qed.

(** Encoding a well-formed string and decoding it again is the identity. *)

Lemma wf16_app : forall a b, wf16 a -> wf16 b -> wf16 (a ++ b).
Proof.
  intros a b Ha Hb. induction Ha; simpl.
  - exact Hb.
  - apply wf16_bmp; assumption.
  - apply wf16_pair; assumption.
Qed.

Lemma utf16_code_points_bmp : forall c s, (0 <= c < 0xD800 \/ 0xE000 <= c < 0x10000) ->
  utf16_code_points (c :: s) = c :: utf16_code_points s.
Proof.
  intros c s H. cbn [utf16_code_points]. unfold is_high, is_low. split_ifs; reflexivity.
Qed.

Lemma utf16_code_points_pair : forall h l s, is_high h = true -> is_low l = true ->
  utf16_code_points (h :: l :: s)
  = (0x10000 + Z.shiftl (h - 0xD800) 10 + (l - 0xDC00)) :: utf16_code_points s.
Proof. intros h l s H L. cbn [utf16_code_points]. rewrite H, L. reflexivity. Qed.

Lemma dec_run_wf16 : forall s rest, wf16 s ->
  dec_run dec_init (utf8_encode s ++ rest) = utf16_code_points s ++ dec_run dec_init rest.
Proof.
  intros s rest Hs. unfold utf8_encode. induction Hs.
  - reflexivity.
  - rewrite utf16_code_points_bmp by assumption. cbn [flat_map].
    rewrite <- app_assoc, dec_run_cp by lia. rewrite IHHs. reflexivity.
  - rewrite utf16_code_points_pair by assumption. cbn [flat_map].
    unfold is_high, is_low in *. zbool.
    rewrite <- app_assoc, dec_run_cp by (rewrite shiftl_10; zlia). rewrite IHHs. reflexivity.
Qed.

Lemma cp_to_utf16_wf16 : forall s, wf16 s -> flat_map cp_to_utf16 (utf16_code_points s) = s.
Proof.
  intros s Hs. induction Hs.
  - reflexivity.
  - rewrite utf16_code_points_bmp by assumption. cbn [flat_map]. rewrite IHHs.
    unfold cp_to_utf16. split_ifs. reflexivity.
  - rewrite utf16_code_points_pair by assumption. cbn [flat_map]. rewrite IHHs.
    unfold is_high, is_low in *. zbool. unfold cp_to_utf16. rewrite shiftl_10. split_ifs.
    bits_to_arith. cbn [app]. f_equal; [|f_equal]; zlia.
Qed.

(** [JSON.stringify] of a string is well formed and has no newline, and
    [JSON.parse] reads it back. *)

Lemma plain_wf16 : forall s, Forall plain s -> wf16 s.
Proof.
  intros s H. induction H; [constructor|]. apply wf16_bmp; [unfold plain in *; lia|assumption].
Qed.

Lemma hex_digit_plain : forall n, 0 <= n < 16 -> plain (hex_digit n).
Proof. intros n H. unfold plain, hex_digit. split_ifs; lia. Qed.

Lemma unicode_escape_plain : forall c, in_range c -> Forall plain (unicode_escape c).
Proof.
  intros c H. unfold in_range, unicode_escape in *. bits_to_arith.
  repeat (apply Forall_cons; [first [unfold plain; lia | apply hex_digit_plain; zlia]|]).
  apply Forall_nil.
Qed.

Lemma escape_unit_plain : forall c, in_range c -> is_high c = false -> is_low c = false ->
  Forall plain (escape_unit c).
Proof.
  intros c H Hh Hl. unfold escape_unit, in_range, is_high, is_low in *. zbool.
  all: split_ifs; try (repeat (apply Forall_cons; [unfold plain; lia|]); apply Forall_nil).
  all: try (apply unicode_escape_plain; unfold in_range; lia).
Qed.

Lemma length_ind : forall (P : jsstring -> Prop),
  (forall s, (forall t, (List.length t < List.length s)%nat -> P t) -> P s) -> forall s, P s.
Proof.
  intros P H s. assert (G : forall n t, (List.length t < n)%nat -> P t).
  { induction n as [|n IHn]; intros t Ht; [lia|]. apply H. intros u Hu. apply IHn. lia. }
  apply (G (S (List.length s))). lia.
Qed.

Lemma json_escape_wf16 : forall s, Forall in_range s -> wf16 (json_escape s).
Proof.
  intros s0; pattern s0; apply length_ind; clear s0. intros s IH Hs.
  destruct s as [|c r]; [constructor|]. inversion Hs as [|? ? Hc Hr]; subst.
  cbn [json_escape].
  destruct (is_high c) eqn:Hh.
  - destruct r as [|d r'].
    + apply plain_wf16, unicode_escape_plain, Hc.
    + inversion Hr as [|? ? Hd Hr']; subst.
      destruct (is_low d) eqn:Hld.
      * apply wf16_pair; [assumption|assumption|]. apply IH; [simpl; lia|assumption].
      * apply wf16_app; [apply plain_wf16, unicode_escape_plain, Hc|].
        apply IH; [simpl; lia|constructor; assumption].
  - destruct (is_low c) eqn:Hl.
    + apply wf16_app; [apply plain_wf16, unicode_escape_plain, Hc|]. apply IH; [simpl; lia|assumption].
    + apply wf16_app; [apply plain_wf16, escape_unit_plain; assumption|].
      apply IH; [simpl; lia|assumption].
Qed.

Lemma json_escape_no_nl : forall s, Forall in_range s -> Forall (fun x => x <> 10) (json_escape s).
Proof.
  assert (P : forall l, Forall plain l -> Forall (fun x => x <> 10) l).
  { intros l H. eapply Forall_impl; [|exact H]. unfold plain. intros; lia. }
  intros s0; pattern s0; apply length_ind; clear s0. intros s IH Hs.
  destruct s as [|c r]; [constructor|]. inversion Hs as [|? ? Hc Hr]; subst.
  cbn [json_escape].
  destruct (is_high c) eqn:Hh.
  - destruct r as [|d r'].
    + apply P, unicode_escape_plain, Hc.
    + inversion Hr as [|? ? Hd Hr']; subst.
      destruct (is_low d) eqn:Hld.
      * unfold is_high, is_low in *. zbool.
        constructor; [lia|]. constructor; [lia|]. apply IH; [simpl; lia|assumption].
      * apply Forall_app; split; [apply P, unicode_escape_plain, Hc|].
        apply IH; [simpl; lia|constructor; assumption].
  - destruct (is_low c) eqn:Hl.
    + apply Forall_app; split; [apply P, unicode_escape_plain, Hc|]. apply IH; [simpl; lia|assumption].
    + apply Forall_app; split; [apply P, escape_unit_plain; assumption|].
      apply IH; [simpl; lia|assumption].
Qed.

Lemma psb_plain : forall c r, c <> 34 -> c <> 92 -> 32 <= c ->
  parse_string_body (c :: r) = cons_res c (parse_string_body r).
Proof. intros c r H1 H2 H3. cbn [parse_string_body]. split_ifs. reflexivity. Qed.

Lemma psb_escape : forall e u r, escape_char e = Some u -> e <> 117 ->
  parse_string_body (92 :: e :: r) = cons_res u (parse_string_body r).
Proof.
  intros e u r H1 H2. simpl. destruct (e =? 117) eqn:E; [zbool; lia|]. rewrite H1. reflexivity.
Qed.

Lemma hex_val_digit : forall n, 0 <= n < 16 -> hex_val (hex_digit n) = Some n.
Proof.
  intros n H. unfold hex_digit. destruct (n <? 10) eqn:E; zbool;
  unfold hex_val, is_digit; split_ifs; f_equal; lia.
Qed.

Lemma psb_unicode_escape : forall c r, in_range c ->
  parse_string_body (unicode_escape c ++ r) = cons_res c (parse_string_body r).
Proof.
  intros c r H. unfold in_range in H. unfold unicode_escape.
  remember (hex_digit (Z.shiftr c 12)) as h1 eqn:E1.
  remember (hex_digit (Z.land (Z.shiftr c 8) 15)) as h2 eqn:E2.
  remember (hex_digit (Z.land (Z.shiftr c 4) 15)) as h3 eqn:E3.
  remember (hex_digit (Z.land c 15)) as h4 eqn:E4.
  cbn [app]. simpl parse_string_body at 1.
  rewrite E1, E2, E3, E4. bits_to_arith. rewrite !hex_val_digit by zlia.
  replace (c / 4096 * 4096 + c / 256 mod 16 * 256 + c / 16 mod 16 * 16 + c mod 16) with c by zlia.
  reflexivity.
Qed.

Lemma psb_escape_unit : forall c r, in_range c -> is_high c = false -> is_low c = false ->
  parse_string_body (escape_unit c ++ r) = cons_res c (parse_string_body r).
Proof.
  intros c r H Hh Hl. unfold escape_unit, in_range, is_high, is_low in *. zbool;
  split_ifs; subst; cbn [app];
  first [ apply psb_escape; [reflexivity|lia]
        | apply psb_unicode_escape; unfold in_range; lia
        | apply psb_plain; lia ].
Qed.

Lemma psb_json_escape : forall s rest, Forall in_range s ->
  parse_string_body (json_escape s ++ 34 :: rest) = Some (s, rest).
Proof.
  intros s0; pattern s0; apply length_ind; clear s0. intros s IH rest Hs.
  destruct s as [|c r]; [reflexivity|]. inversion Hs as [|? ? Hc Hr]; subst.
  cbn [json_escape].
  destruct (is_high c) eqn:Hh.
  - destruct r as [|d r'].
    + rewrite psb_unicode_escape by exact Hc. reflexivity.
    + inversion Hr as [|? ? Hd Hr']; subst.
      destruct (is_low d) eqn:Hld.
      * cbn [app]. unfold is_high, is_low in *. zbool.
        rewrite psb_plain, psb_plain by lia. rewrite IH by (simpl; lia || assumption). reflexivity.
      * rewrite <- app_assoc, psb_unicode_escape by exact Hc.
        rewrite IH by (simpl; lia || (constructor; assumption)). reflexivity.
  - destruct (is_low c) eqn:Hl.
    + rewrite <- app_assoc, psb_unicode_escape by exact Hc.
      rewrite IH by (simpl; lia || assumption). reflexivity.
    + rewrite <- app_assoc, psb_escape_unit by assumption.
      rewrite IH by (simpl; lia || assumption). reflexivity.
Qed.

Lemma response_line_str : forall nts d,
  response_line nts (Val (JStr d)) = record_text d ++ [10].
Proof. intros. unfold response_line, record_text. cbn [json_stringify]. rewrite <- !app_assoc. reflexivity. Qed.

Lemma record_text_eq : forall d,
  record_text d = [123; 34; 114; 101; 115; 112; 111; 110; 115; 101; 34; 58; 34]
                  ++ json_escape d ++ [34; 125].
Proof. intros d. unfold record_text, quote_json. simpl. rewrite <- app_assoc. reflexivity. Qed.

Lemma json_parse_record : forall d, Forall in_range d ->
  json_parse (record_text d) = Some (JObj [(js "response", JStr d)]).
Proof.
  intros d Hd. rewrite record_text_eq. unfold json_parse. simpl.
  rewrite psb_json_escape by exact Hd. reflexivity.
Qed.

(** Reads that hold whole records. *)

Lemma split_nl_app_nl : forall x y, Forall (fun c => c <> 10) x ->
  split_nl (x ++ 10 :: y) = x :: split_nl y.
Proof.
  intros x y H. induction H as [|c x Hc Hx IH]; [reflexivity|].
  cbn [app split_nl]. rewrite IH. destruct (c =? 10) eqn:E; [zbool; contradiction|reflexivity].
Qed.

Lemma record_text_no_nl : forall d, Forall in_range d -> Forall (fun c => c <> 10) (record_text d).
Proof.
  intros d Hd. rewrite record_text_eq. apply Forall_app. split.
  - repeat (apply Forall_cons; [lia|]). apply Forall_nil.
  - apply Forall_app. split; [apply json_escape_no_nl, Hd|].
    repeat (apply Forall_cons; [lia|]). apply Forall_nil.
Qed.

Lemma record_text_wf16 : forall d, Forall in_range d -> wf16 (record_text d ++ [10]).
Proof.
  intros d Hd. rewrite record_text_eq, <- !app_assoc. apply wf16_app.
  - apply plain_wf16. repeat (apply Forall_cons; [unfold plain; lia|]). apply Forall_nil.
  - apply wf16_app; [apply json_escape_wf16, Hd|].
    repeat (apply wf16_bmp; [lia|]). apply wf16_nil.
Qed.

Lemma split_records : forall g, Forall (Forall in_range) g ->
  split_nl (flat_map (fun d => record_text d ++ [10]) g) = map record_text g ++ [[]].
Proof.
  intros g H. induction H as [|d g Hd Hg IH]; [reflexivity|].
  cbn [flat_map map]. rewrite <- app_assoc. cbn [app].
  rewrite split_nl_app_nl by (apply record_text_no_nl, Hd). rewrite IH. reflexivity.
Qed.

Lemma decode_group : forall nts g, Forall (Forall in_range) g ->
  utf8_decode (group_bytes nts g) = flat_map (fun d => record_text d ++ [10]) g.
Proof.
  intros nts g H. unfold utf8_decode, group_bytes.
  assert (D : forall g', Forall (Forall in_range) g' ->
    dec_run dec_init (flat_map (fun d => utf8_encode (response_line nts (Val (JStr d)))) g')
    = flat_map (fun d => utf16_code_points (record_text d ++ [10])) g').
  { intros g' H'. induction H' as [|d g' Hd Hg IH]; [reflexivity|].
    cbn [flat_map]. rewrite response_line_str, dec_run_wf16 by (apply record_text_wf16, Hd).
    rewrite IH. reflexivity. }
  rewrite D by exact H.
  assert (E : flat_map cp_to_utf16 (flat_map (fun d => utf16_code_points (record_text d ++ [10])) g)
              = flat_map (fun d => record_text d ++ [10]) g).
  { clear D. induction H as [|d g Hd Hg IH]; [reflexivity|].
    cbn [flat_map]. rewrite flat_map_app, cp_to_utf16_wf16 by (apply record_text_wf16, Hd).
    rewrite IH. reflexivity. }
  rewrite E. destruct g as [|d g]; [reflexivity|].
  cbn [flat_map]. rewrite record_text_eq. reflexivity.
Qed.

Lemma append_response_record : forall nts d ms m, msg_role m = Assistant ->
  append_response nts (JObj [(js "response", JStr d)]) (ms ++ [m])
  = Some (ms ++ [mkMessage Assistant (content m ++ d) (timestamp m)]).
Proof.
  intros nts d ms m Hm. unfold append_response. rewrite last_opt_snoc, Hm.
  cbn [role_eqb]. simpl get_response. rewrite removelast_last. reflexivity.
Qed.

Lemma apply_records : forall nts g ms m, Forall (Forall in_range) g -> msg_role m = Assistant ->
  apply_lines nts (ms ++ [m]) (map record_text g ++ [[]])
  = Some (ms ++ [mkMessage Assistant (content m ++ List.concat g) (timestamp m)]).
Proof.
  intros nts g ms m H. revert m. induction H as [|d g Hd Hg IH]; intros m Hm.
  - cbn. rewrite app_nil_r. destruct m; cbn in *; subst; reflexivity.
  - cbn [map app apply_lines].
    replace (trim_nonempty (record_text d)) with true by (rewrite record_text_eq; reflexivity).
    rewrite json_parse_record by exact Hd. rewrite append_response_record by exact Hm.
    rewrite IH by reflexivity. cbn [content timestamp List.concat]. rewrite app_assoc. reflexivity.
Qed.

Lemma read_loop_groups : forall nts groups ms m,
  Forall (Forall (Forall in_range)) groups -> msg_role m = Assistant ->
  read_loop nts (ms ++ [m]) (reads_then_done (map (group_bytes nts) groups))
  = LoopDone (ms ++ [mkMessage Assistant (content m ++ List.concat (List.concat groups)) (timestamp m)]).
Proof.
  intros nts groups ms m H. revert m. induction H as [|g gs Hg Hgs IH]; intros m Hm.
  - cbn. rewrite app_nil_r. destruct m; cbn in *; subst; reflexivity.
  - cbn [map reads_then_done read_loop].
    rewrite decode_group, split_records, apply_records by assumption.
    rewrite IH by reflexivity. cbn [content timestamp List.concat]. rewrite concat_app, app_assoc.
    reflexivity.
Qed.

(** C1 (as the code has it): when every read the consumer receives holds
    whole records [{"response": d}] and their newlines (no read boundary
    falls inside a record), the final assistant message text is the
    concatenation of the deltas, in order.  Each read is decoded and split on
    its own, so this is the only case the code handles ([chatStream] does the
    same). *)
Theorem handleSubmit_whole_record_reads : forall nts ct t1 t2 t3 ms inp groups,
  trim_nonempty inp = true ->
  Forall (Forall (Forall in_range)) groups ->
  fst (handleSubmit nts ct
         (fun _ _ => FetchResponse (Some (reads_then_done (map (group_bytes nts) groups))))
         t1 t2 t3 (mkChat ms inp false))
  = Some (mkChat (ms ++ [mkMessage User inp t1;
                         mkMessage Assistant (List.concat (List.concat groups)) t2]) [] false).
Proof.
  intros nts ct t1 t2 t3 ms inp groups Hi Hg. unfold handleSubmit. cbn [input isLoading messages].
  rewrite Hi. cbn [negb orb fst].
  rewrite read_loop_groups by (exact Hg || reflexivity). cbn [content timestamp app].
  rewrite <- app_assoc. reflexivity.
Qed.

Lemma handleSubmit_whole_record_reads_witness :
  trim_nonempty (js "intro") = true /\
  Forall (Forall (Forall in_range)) [[js "ab"; [0xD83D; 0xDE00]]; [js "c"]] /\
  fst (handleSubmit (fun l => l) (js "H5P.Course")
         (fun _ _ => FetchResponse (Some (reads_then_done
                       (map (group_bytes (fun l => l)) [[js "ab"; [0xD83D; 0xDE00]]; [js "c"]]))))
         1 2 3 (mkChat [] (js "intro") false))
  = Some (mkChat ([] ++ [mkMessage User (js "intro") 1;
                         mkMessage Assistant (List.concat (List.concat [[js "ab"; [0xD83D; 0xDE00]]; [js "c"]])) 2]) [] false).
Proof.
  assert (F : Forall (Forall (Forall in_range)) [[js "ab"; [0xD83D; 0xDE00]]; [js "c"]]).
  { simpl. repeat (apply Forall_cons || apply Forall_nil). all: unfold in_range; vm_compute; split; [intro H; discriminate H|reflexivity]. }
  split; [reflexivity|]. split; [exact F|].
  apply handleSubmit_whole_record_reads; [reflexivity|exact F].
Defined.

(** C1 fails as stated: the record of the delta ["ab"], split after
    [{"response":] into two reads whose bytes together are the record's
    bytes, leaves the assistant message empty: both halves fail
    [JSON.parse] and are skipped. *)
Lemma handleSubmit_split_record :
  let line := response_line (fun l => l) (Val (JStr (js "ab"))) in
  utf8_encode (firstn 12 line) ++ utf8_encode (skipn 12 line) = utf8_encode line /\
  fst (handleSubmit (fun l => l) (js "H5P.Course") (fun _ _ => FetchResponse (Some split_record_reads))
         1 2 3 (mkChat [] (js "intro") false))
  = Some (mkChat [mkMessage User (js "intro") 1; mkMessage Assistant [] 2] [] false).
Proof. split; vm_compute; reflexivity. Qed.

(** ** Lines that are not JSON *)

Lemma apply_lines_app : forall nts ms ls1 ls2,
  apply_lines nts ms (ls1 ++ ls2)
  = match apply_lines nts ms ls1 with
    | Some ms' => apply_lines nts ms' ls2
    | None => None
    end.
Proof.
  intros nts ms ls1. revert ms. induction ls1 as [|l ls1 IH]; intros ms ls2; [reflexivity|].
  cbn [app apply_lines]. destruct (trim_nonempty l); [|apply IH].
  destruct (json_parse l) as [p|]; [|apply IH].
  destruct (append_response nts p ms); [apply IH|reflexivity].
Qed.

Lemma apply_lines_invalid : forall nts ms l ls,
  json_parse l = None -> apply_lines nts ms (l :: ls) = apply_lines nts ms ls.
Proof. intros nts ms l ls H. cbn [apply_lines]. rewrite H. destruct (trim_nonempty l); reflexivity. Qed.

(** C3: a line of a read that [JSON.parse] rejects is skipped: the read
    loop goes on exactly as if the line were not there, so the text before
    it is kept, the stream is not ended and every later line (of this read
    and of the following ones) is still applied in order. *)
Theorem read_loop_skips_invalid_line : forall nts ms value rest ls1 l ls2,
  split_nl (utf8_decode value) = ls1 ++ l :: ls2 ->
  json_parse l = None ->
  read_loop nts ms (TChunk value rest)
  = match apply_lines nts ms (ls1 ++ ls2) with
    | Some ms' => read_loop nts ms' rest
    | None => LoopCrashed
    end.
Proof.
  intros nts ms value rest ls1 l ls2 Hs Hl. cbn [read_loop]. rewrite Hs, !apply_lines_app.
  destruct (apply_lines nts ms ls1); [|reflexivity].
  rewrite apply_lines_invalid by exact Hl. reflexivity.
Qed.

Lemma read_loop_skips_invalid_line_witness :
  split_nl (utf8_decode (utf8_encode (js "oops" ++ [10] ++ record_text (js "ab") ++ [10])))
    = [] ++ js "oops" :: [record_text (js "ab"); []] /\
  json_parse (js "oops") = None /\
  read_loop (fun l => l) [mkMessage Assistant (js "x") 1]
    (TChunk (utf8_encode (js "oops" ++ [10] ++ record_text (js "ab") ++ [10])) TDone)
  = match apply_lines (fun l => l) [mkMessage Assistant (js "x") 1]
            ([] ++ [record_text (js "ab"); []]) with
    | Some ms' => read_loop (fun l => l) ms' TDone
    | None => LoopCrashed
    end.
Proof.
  assert (H1 : split_nl (utf8_decode (utf8_encode (js "oops" ++ [10] ++ record_text (js "ab") ++ [10])))
               = [] ++ js "oops" :: [record_text (js "ab"); []]) by (vm_compute; reflexivity).
  assert (H2 : json_parse (js "oops") = None) by (vm_compute; reflexivity).
  split; [exact H1|]. split; [exact H2|].
  exact (read_loop_skips_invalid_line (fun l => l) _ _ TDone [] (js "oops") _ H1 H2).
Defined.

(** ** Further properties of the relay, [chatStream] and the consumer *)

(** [JSON.parse] reads back what [JSON.stringify] writes for any string of
    code units, lone surrogates, quotes, backslashes and control characters
    included. *)
Theorem json_string_roundtrip : forall nts s, Forall in_range s ->
  json_parse (json_stringify nts (JStr s)) = Some (JStr s).
Proof.
  intros nts s Hs. cbn [json_stringify]. unfold quote_json, json_parse. simpl.
  rewrite psb_json_escape by exact Hs. reflexivity.
Qed.

(** Decoding the UTF-8 encoding of a well-formed string. *)
Lemma utf8_roundtrip_aux : forall s, wf16 s -> utf8_decode (utf8_encode s) = strip_bom s.
Proof.
  intros s Hs. unfold utf8_decode. rewrite <- (app_nil_r (utf8_encode s)), dec_run_wf16 by exact Hs.
  cbn [dec_run]. rewrite app_nil_r, cp_to_utf16_wf16 by exact Hs. reflexivity.
Qed.

Lemma own_keys_order_single : forall kv, own_keys_order [kv] = [kv].
Proof. intros kv. unfold own_keys_order. simpl. destruct (array_index (fst kv)); reflexivity. Qed.

Lemma json_parse_field_record : forall k d, Forall in_range k -> Forall in_range d ->
  json_parse (field_record k d) = Some (JObj [(k, JStr d)]).
Proof.
  intros k d Hk Hd. unfold field_record, quote_json.
  replace ([123] ++ ([34] ++ json_escape k ++ [34]) ++ [58] ++ ([34] ++ json_escape d ++ [34]) ++ [125])
    with (123 :: 34 :: json_escape k ++ 34 :: 58 :: 34 :: json_escape d ++ [34; 125])
    by (simpl; rewrite <- !app_assoc; reflexivity).
  unfold json_parse. simpl.
  rewrite psb_json_escape by exact Hk. simpl.
  rewrite psb_json_escape by exact Hd. simpl.
  unfold build_object. simpl. rewrite own_keys_order_single. reflexivity.
Qed.

Lemma field_record_eq : forall k d,
  field_record k d = [123; 34] ++ json_escape k ++ [34; 58; 34] ++ json_escape d ++ [34; 125].
Proof. intros k d. unfold field_record, quote_json. simpl. rewrite <- !app_assoc. reflexivity. Qed.

Lemma field_record_no_nl : forall k d, Forall in_range k -> Forall in_range d ->
  Forall (fun c => c <> 10) (field_record k d).
Proof.
  intros k d Hk Hd. rewrite field_record_eq.
  repeat (apply Forall_app; split);
  first [ apply json_escape_no_nl; assumption
        | repeat (apply Forall_cons; [lia|]); apply Forall_nil ].
Qed.

Lemma field_record_wf16 : forall k d, Forall in_range k -> Forall in_range d ->
  wf16 (field_record k d ++ [10]).
Proof.
  intros k d Hk Hd. rewrite field_record_eq, <- !app_assoc.
  repeat apply wf16_app;
  first [ apply json_escape_wf16; assumption
        | repeat (apply wf16_bmp; [lia|]); apply wf16_nil ].
Qed.

Lemma decode_field_record_line : forall k d, Forall in_range k -> Forall in_range d ->
  split_nl (utf8_decode (utf8_encode (field_record k d ++ [10]))) = [field_record k d; []].
Proof.
  intros k d Hk Hd. rewrite utf8_roundtrip_aux by (apply field_record_wf16; assumption).
  replace (strip_bom (field_record k d ++ [10])) with (field_record k d ++ [10])
    by (rewrite field_record_eq; reflexivity).
  rewrite split_nl_app_nl by (apply field_record_no_nl; assumption). reflexivity.
Qed.

Lemma chat_lines_records : forall g, Forall (Forall in_range) g ->
  chat_lines (map record_text g ++ [[]]) = map (fun d => Val (JStr d)) g.
Proof.
  intros g H. induction H as [|d g Hd Hg IH]; [reflexivity|].
  cbn [map app chat_lines].
  replace (trim_nonempty (record_text d)) with true by (rewrite record_text_eq; reflexivity).
  rewrite json_parse_record by exact Hd. simpl get_response. rewrite IH. reflexivity.
Qed.

Lemma record_bytes_group : forall nts g,
  flat_map (fun d => utf8_encode (record_text d ++ [10])) g = group_bytes nts g.
Proof.
  intros nts g. unfold group_bytes. induction g as [|d g IH]; [reflexivity|].
  cbn [flat_map]. rewrite IH, response_line_str. reflexivity.
Qed.

Lemma chat_read_loop_chunks : forall c svc chunks rest,
  chat_read_loop c svc (map UChunk chunks ++ rest)
  = let '(svc', ds', e) := chat_read_loop c svc rest in
    (svc', flat_map (fun v => chat_lines (split_nl (utf8_decode v))) chunks ++ ds', e).
Proof.
  intros c svc chunks rest. induction chunks as [|v chunks IH].
  - cbn [map app flat_map]. destruct (chat_read_loop c svc rest) as [[s ds] e]. reflexivity.
  - cbn [map app chat_read_loop flat_map]. rewrite IH.
    destruct (chat_read_loop c svc rest) as [[s ds] e]. rewrite app_assoc. reflexivity.
Qed.

Lemma chatStream_records_aux : forall svc groups, Forall (Forall (Forall in_range)) groups ->
  chatStream svc (UResponse true :: record_reads groups ++ [UDone])
  = (mkService None (S (next_controller svc)), map (fun d => Val (JStr d)) (List.concat groups),
     SCompleted).
Proof.
  intros svc groups H. unfold chatStream, record_reads. cbn [chat_fetch].
  rewrite chat_read_loop_chunks. cbn [chat_read_loop release next_controller]. rewrite app_nil_r.
  f_equal. f_equal. induction H as [|g gs Hg Hgs IH]; [reflexivity|].
  cbn [map flat_map List.concat]. rewrite IH, map_app. f_equal.
  rewrite (record_bytes_group (fun l => l)), decode_group, split_records, chat_lines_records
    by assumption. reflexivity.
Qed.

Lemma trim_nonempty_nonempty : forall s, trim_nonempty s = true -> nonempty s = true.
Proof. intros [|c s] H; [discriminate|reflexivity]. Qed.

Lemma Forall_concat_in : forall {A} (P : A -> Prop) l, Forall (Forall P) l -> Forall P (List.concat l).
Proof.
  intros A P l H. induction H; [constructor|]. cbn [List.concat]. apply Forall_app. split; assumption.
Qed.

Lemma reads_per_write_deltas : forall nts ds rest,
  reads_per_write (map (fun v => DownstreamWrite (response_line nts v)) (map (fun d => Val (JStr d)) ds)
                   ++ DownstreamEnd :: rest)
  = reads_then_done (map (group_bytes nts) (map (fun d => [d]) ds)).
Proof.
  intros nts ds rest. induction ds as [|d ds IH]; [reflexivity|].
  cbn [map app reads_per_write reads_then_done]. rewrite IH. unfold group_bytes. cbn [flat_map].
  rewrite app_nil_r. reflexivity.
Qed.

Lemma concat_singletons : forall {A} (l : list A), List.concat (map (fun x => [x]) l) = l.
Proof. intros A l. induction l as [|x l IH]; [reflexivity|]. cbn. rewrite IH. reflexivity. Qed.

Lemma Forall_singletons : forall {A} (P : A -> Prop) l, Forall P l -> Forall (Forall P) (map (fun x => [x]) l).
Proof. intros A P l H. induction H; constructor; [constructor; [assumption|constructor]|assumption]. Qed.

(** Relay and consumer together: when the upstream streams records
    [{"response": d}] in reads that hold whole records, and then closes, the
    consumer (reading each relay write on its own) ends with one new
    assistant message whose text is the concatenation of all deltas. *)
Theorem relay_end_to_end_concat : forall nts svc x ct d ms t1 t2 t3 groups,
  nonempty ct = true -> trim_nonempty d = true -> Forall (Forall (Forall in_range)) groups ->
  fst (handleSubmit nts ct
         (relay_fetch nts svc (Some x) (UResponse true :: record_reads groups ++ [UDone]))
         t1 t2 t3 (mkChat ms d false))
  = Some (mkChat (ms ++ [mkMessage User d t1;
                         mkMessage Assistant (List.concat (List.concat groups)) t2]) [] false).
Proof.
  intros nts svc x ct d ms t1 t2 t3 groups Hct Hd Hg.
  unfold handleSubmit. cbn [input isLoading messages]. rewrite Hd. cbn [negb orb fst].
  unfold relay_fetch. rewrite relay_stream_shape by (assumption || apply trim_nonempty_nonempty, Hd).
  rewrite chatStream_records_aux by exact Hg. cbn [fst snd reads_per_write].
  rewrite reads_per_write_deltas.
  rewrite read_loop_groups by (reflexivity || apply Forall_singletons, Forall_concat_in, Hg).
  rewrite concat_singletons. cbn [content timestamp app]. rewrite <- app_assoc. reflexivity.
Qed.

Lemma apply_lines_blank : forall nts ms rest,
  Forall (fun x => trim_nonempty x = false) rest -> apply_lines nts ms rest = Some ms.
Proof. intros nts ms rest H. induction H as [|x r Hx Hr IH]; [reflexivity|]. cbn [apply_lines]. rewrite Hx. exact IH. Qed.

Lemma read_loop_no_response : forall nts ms m value l rest props,
  msg_role m = Assistant -> trim_nonempty l = true ->
  json_parse l = Some (JObj props) -> assoc (js "response") props = None ->
  split_nl (utf8_decode value) = l :: rest ->
  Forall (fun x => trim_nonempty x = false) rest ->
  read_loop nts (ms ++ [m]) (TChunk value TDone)
  = LoopDone (ms ++ [mkMessage Assistant (content m ++ js "undefined") (timestamp m)]).
Proof.
  intros nts ms m value l rest props Hm Hl Hp Ha Hs Hr. cbn [read_loop]. rewrite Hs.
  cbn [apply_lines]. rewrite Hl, Hp.
  unfold append_response. rewrite last_opt_snoc, Hm. cbn [role_eqb get_response].
  rewrite Ha. cbn [jsval_to_string]. rewrite removelast_last.
  rewrite apply_lines_blank by exact Hr. reflexivity.
Qed.

Lemma assoc_other_key : forall {A} k (v : A), k <> js "response" -> assoc (js "response") [(k, v)] = None.
Proof.
  intros A k v H. cbn [assoc]. destruct (jsstring_eqb (js "response") k) eqn:E; [|reflexivity].
  apply jsstring_eqb_eq in E. congruence.
Qed.

(** An upstream line whose only field is not [response] (such as
    [{"error": "..."}]) reaches [callback] as [undefined]; the relay writes
    [{}] for it and the consumer appends the text ["undefined"]. *)
Theorem relay_missing_response_shows_undefined : forall nts svc x ct d ms t1 t2 t3 k e,
  nonempty ct = true -> trim_nonempty d = true ->
  Forall in_range k -> Forall in_range e -> k <> js "response" ->
  fst (handleSubmit nts ct
         (relay_fetch nts svc (Some x)
            [UResponse true; UChunk (utf8_encode (field_record k e ++ [10])); UDone])
         t1 t2 t3 (mkChat ms d false))
  = Some (mkChat (ms ++ [mkMessage User d t1; mkMessage Assistant (js "undefined") t2]) [] false).
Proof.
  intros nts svc x ct d ms t1 t2 t3 k e Hct Hd Hk He Hne.
  unfold handleSubmit. cbn [input isLoading messages]. rewrite Hd. cbn [negb orb fst].
  unfold relay_fetch. rewrite relay_stream_shape by (assumption || apply trim_nonempty_nonempty, Hd).
  assert (C : chatStream svc [UResponse true; UChunk (utf8_encode (field_record k e ++ [10])); UDone]
              = (mkService None (S (next_controller svc)), [Undefined], SCompleted)).
  { unfold chatStream. cbn [chat_fetch chat_read_loop release next_controller].
    rewrite decode_field_record_line by assumption. cbn [chat_lines].
    replace (trim_nonempty (field_record k e)) with true by (rewrite field_record_eq; reflexivity).
    rewrite json_parse_field_record by assumption. cbn [get_response].
    rewrite assoc_other_key by exact Hne. reflexivity. }
  rewrite C. cbn [fst snd map app reads_per_write].
  assert (R : response_line nts Undefined = js "{}" ++ [10]) by reflexivity. rewrite R.
  rewrite (read_loop_no_response nts (ms ++ [mkMessage User d t1]) (mkMessage Assistant [] t2)
             _ (js "{}") [[]] []) by first [reflexivity | apply Forall_cons; [reflexivity|apply Forall_nil]].
  cbn [content timestamp app]. rewrite <- app_assoc. reflexivity.
Qed.

Lemma relay_failure_body : forall nts svc ct d reply es,
  nonempty ct = true -> nonempty d = true ->
  (reply = None \/
   exists x, reply = Some x /\ snd (fst (chatStream svc es)) = [] /\ snd (chatStream svc es) = SFailed) ->
  exists calls,
    snd (relay_stream nts svc ct d reply es)
      = calls ++ [StatusJson 500 (error_body (js "Failed to stream content suggestions"))]
    /\ Forall (fun e => exists s p, e = UpstreamCall s p) calls.
Proof.
  intros nts svc ct d reply es Hct Hd [-> | [x [-> [Hds He]]]].
  - unfold relay_stream. rewrite Hct, Hd. cbn [negb orb snd].
    exists [UpstreamCall false (Val (JStr (build_prompt ct d)))].
    split; [reflexivity|]. repeat constructor; eauto.
  - rewrite relay_stream_shape by assumption. rewrite Hds, He. cbn [map app].
    exists [UpstreamCall false (Val (JStr (build_prompt ct d))); UpstreamCall true x].
    split; [reflexivity|]. repeat constructor; eauto.
Qed.

Lemma reads_per_write_calls : forall calls st b,
  Forall (fun e => exists s p, e = UpstreamCall s p) calls ->
  reads_per_write (calls ++ [StatusJson st b]) = TChunk (utf8_encode b) TDone.
Proof.
  intros calls st b H. induction H as [|e r [s0 [p0 ->]] _ IH]; [reflexivity|]. exact IH.
Qed.

Lemma relay_failure_submit : forall nts svc ct d ms t1 t2 t3 reply es,
  nonempty ct = true -> trim_nonempty d = true ->
  (reply = None \/
   exists x, reply = Some x /\ snd (fst (chatStream svc es)) = [] /\ snd (chatStream svc es) = SFailed) ->
  handleSubmit nts ct (relay_fetch nts svc reply es) t1 t2 t3 (mkChat ms d false)
  = (Some (mkChat (ms ++ [mkMessage User d t1; mkMessage Assistant (js "undefined") t2]) [] false),
     Resolved Undefined).
Proof.
  intros nts svc ct d ms t1 t2 t3 reply es Hct Hd Hr.
  destruct (relay_failure_body nts svc ct d reply es Hct (trim_nonempty_nonempty d Hd) Hr)
    as [calls [E F]].
  assert (L : read_loop nts ((ms ++ [mkMessage User d t1]) ++ [mkMessage Assistant [] t2])
      (TChunk (utf8_encode (error_body (js "Failed to stream content suggestions"))) TDone)
    = LoopDone ((ms ++ [mkMessage User d t1]) ++ [mkMessage Assistant (js "undefined") t2])).
  { apply (read_loop_no_response nts _ (mkMessage Assistant [] t2) _
             (error_body (js "Failed to stream content suggestions")) []
             [(js "error", JStr (js "Failed to stream content suggestions"))]);
      [reflexivity|reflexivity|vm_compute; reflexivity|vm_compute; reflexivity
      |vm_compute; reflexivity|constructor]. }
  unfold handleSubmit. cbn [input isLoading messages]. rewrite Hd. cbn [negb orb].
  unfold relay_fetch. rewrite E, reads_per_write_calls by exact F. rewrite L.
  cbn [settles]. rewrite <- app_assoc. reflexivity.
Qed.

(** When the non-streaming call fails, or the streaming call fails before
    any delta, the relay answers status 500 with [{"error": ...}]; the
    consumer does not look at the status, so its assistant message reads
    ["undefined"] and no apology is shown. *)
Theorem relay_failure_shows_undefined : forall nts svc ct d ms t1 t2 t3 reply es,
  nonempty ct = true -> trim_nonempty d = true ->
  (reply = None \/
   exists x, reply = Some x /\ snd (fst (chatStream svc es)) = [] /\ snd (chatStream svc es) = SFailed) ->
  fst (handleSubmit nts ct (relay_fetch nts svc reply es) t1 t2 t3 (mkChat ms d false))
  = Some (mkChat (ms ++ [mkMessage User d t1; mkMessage Assistant (js "undefined") t2]) [] false).
Proof.
  intros nts svc ct d ms t1 t2 t3 reply es Hct Hd Hr.
  rewrite relay_failure_submit by assumption. reflexivity.
Qed.

(** C8 (as the code has it): when the upstream model server fails before
    any byte (the relay's non-streaming call throws, or its streaming call
    fails before any delta), the relay makes only its upstream calls and
    answers status 500 with [{"error": ...}].  The consumer does not look
    at the status: the empty assistant message becomes ["undefined"] and
    no apology is shown; [isLoading] is cleared, the promise resolves, and
    the next submit with non-blank input is taken. *)
Theorem upstream_failure_no_apology : forall nts svc ct d ms t1 t2 t3 reply es,
  nonempty ct = true -> trim_nonempty d = true ->
  (reply = None \/
   exists x, reply = Some x /\ snd (fst (chatStream svc es)) = [] /\ snd (chatStream svc es) = SFailed) ->
  (exists calls,
     snd (relay_stream nts svc ct d reply es)
       = calls ++ [StatusJson 500 (error_body (js "Failed to stream content suggestions"))]
     /\ Forall (fun e => exists s p, e = UpstreamCall s p) calls)
  /\ handleSubmit nts ct (relay_fetch nts svc reply es) t1 t2 t3 (mkChat ms d false)
     = (Some (mkChat (ms ++ [mkMessage User d t1; mkMessage Assistant (js "undefined") t2]) [] false),
        Resolved Undefined)
  /\ (forall inp' fetch' t1' t2' t3',
        trim_nonempty inp' = true ->
        match fst (handleSubmit nts ct fetch' t1' t2' t3'
                     (mkChat (ms ++ [mkMessage User d t1; mkMessage Assistant (js "undefined") t2])
                        inp' false)) with
        | Some st => exists rest,
            messages st = (ms ++ [mkMessage User d t1; mkMessage Assistant (js "undefined") t2])
                          ++ mkMessage User inp' t1' :: rest
        | None => True
        end).
Proof.
  intros nts svc ct d ms t1 t2 t3 reply es Hct Hd Hr. split; [|split].
  - exact (relay_failure_body nts svc ct d reply es Hct (trim_nonempty_nonempty d Hd) Hr).
  - exact (relay_failure_submit nts svc ct d ms t1 t2 t3 reply es Hct Hd Hr).
  - intros inp' fetch' t1' t2' t3' H. apply handleSubmit_accepted. exact H.
Qed.

(** When the consumer's own request fails before any body byte, the
    apology is a new assistant message: right after the user message when
    the [fetch] rejects, and after the empty placeholder, which stays, when
    the response was obtained but its body is [null] or its first read
    fails.  [isLoading] is cleared and the promise resolves. *)
Theorem handleSubmit_request_failure : forall nts ct fetch t1 t2 t3 ms inp,
  trim_nonempty inp = true ->
  (fetch ct inp = FetchReject ->
     handleSubmit nts ct fetch t1 t2 t3 (mkChat ms inp false)
     = (Some (mkChat (ms ++ [mkMessage User inp t1; mkMessage Assistant apology_text t3]) [] false),
        Resolved Undefined))
  /\ (fetch ct inp = FetchResponse None \/ fetch ct inp = FetchResponse (Some TFail) ->
     handleSubmit nts ct fetch t1 t2 t3 (mkChat ms inp false)
     = (Some (mkChat (ms ++ [mkMessage User inp t1; mkMessage Assistant [] t2;
                             mkMessage Assistant apology_text t3]) [] false),
        Resolved Undefined)).
Proof.
  intros nts ct fetch t1 t2 t3 ms inp Hinp.
  unfold handleSubmit. cbn [input isLoading messages]. rewrite Hinp. cbn [negb orb].
  split.
  - intros ->. rewrite <- app_assoc. reflexivity.
  - intros [-> | ->]; cbn [read_loop settles]; rewrite <- !app_assoc; reflexivity.
Qed.

Lemma js_in_range : forall s, Forall in_range (js s).
Proof.
  intros s. unfold js. apply Forall_forall. intros c Hc. apply in_map_iff in Hc.
  destruct Hc as [a [<- _]]. pose proof (Ascii.nat_ascii_bounded a). unfold in_range. lia.
Qed.

(** The non-streaming route makes one non-streaming upstream call with the
    built prompt and answers [{"suggestions": s}], which [JSON.parse] reads
    back; an answer without [response] gives [{}], and a failed call gives
    status 500. *)
Theorem suggestions_route_answer : forall nts ct d s,
  nonempty ct = true -> nonempty d = true -> Forall in_range s ->
  suggestions_route nts ct d (Some (Val (JStr s)))
    = [UpstreamCall false (Val (JStr (build_prompt ct d)));
       StatusJson 200 (field_record (js "suggestions") s)]
  /\ json_parse (field_record (js "suggestions") s) = Some (JObj [(js "suggestions", JStr s)])
  /\ suggestions_route nts ct d (Some Undefined)
    = [UpstreamCall false (Val (JStr (build_prompt ct d))); StatusJson 200 (js "{}")]
  /\ suggestions_route nts ct d None
    = [UpstreamCall false (Val (JStr (build_prompt ct d)));
       StatusJson 500 (error_body (js "Failed to get content suggestions"))].
Proof.
  intros nts ct d s Hct Hd Hs. unfold suggestions_route. rewrite Hct, Hd. cbn [negb orb].
  split; [reflexivity|]. split; [|split; reflexivity].
  apply json_parse_field_record; [apply js_in_range|exact Hs].
Qed.

(** An accepted submit always clears the input and keeps the old log
    followed by the user message; [isLoading] stays set only when the
    response body's reads never settle. *)
Theorem handleSubmit_settled_state : forall nts ct fetch t1 t2 t3 ms inp,
  trim_nonempty inp = true ->
  match fst (handleSubmit nts ct fetch t1 t2 t3 (mkChat ms inp false)) with
  | Some st =>
      input st = []
      /\ (exists rest, messages st = ms ++ mkMessage User inp t1 :: rest)
      /\ (isLoading st = true ->
          exists t r, fetch ct inp = FetchResponse (Some t)
            /\ read_loop nts ((ms ++ [mkMessage User inp t1]) ++ [mkMessage Assistant [] t2]) t
               = LoopPending r)
  | None => True
  end.
Proof.
  intros nts ct fetch t1 t2 t3 ms inp H.
  pose proof (handleSubmit_accepted nts ct fetch t1 t2 t3 ms inp H) as A.
  revert A. unfold handleSubmit. cbn [input isLoading messages]. rewrite H. cbn [negb orb fst].
  destruct (fetch ct inp) as [|[t|]] eqn:F.
  - intros A. split; [reflexivity|]. split; [exact A|]. intros E; discriminate E.
  - destruct (read_loop nts ((ms ++ [mkMessage User inp t1]) ++ [mkMessage Assistant [] t2]) t)
      as [r|r|r|] eqn:L; intros A; try exact I; (split; [reflexivity|]); (split; [exact A|]);
      cbn [isLoading]; intros E; try discriminate E.
    exists t, r. split; [reflexivity|exact L].
  - intros A. split; [reflexivity|]. split; [exact A|]. intros E; discriminate E.
Qed.

Lemma apply_lines_suffix : forall nts ls ms m next,
  apply_lines nts (ms ++ [m]) ls = Some next ->
  exists suffix, next = ms ++ [mkMessage (msg_role m) (content m ++ suffix) (timestamp m)].
Proof.
  induction ls as [|l ls IH]; intros ms m next H; cbn [apply_lines] in H.
  - inversion H; subst. exists []. destruct m as [r c t]. cbn. rewrite app_nil_r. reflexivity.
  - destruct (trim_nonempty l); [|eapply IH; eauto].
    destruct (json_parse l) as [p|]; [|eapply IH; eauto].
    destruct (append_response nts p (ms ++ [m])) as [ms'|] eqn:E; [|discriminate].
    destruct (append_response_snoc _ _ _ _ _ E) as [suf ->].
    destruct (IH _ _ _ H) as [suf' ->]. exists (suf ++ suf'). cbn. rewrite app_assoc. reflexivity.
Qed.

(** However the stream ends (done, failed or still waiting), the read loop
    changes only the last message, and only by appending text to it. *)
Theorem read_loop_only_extends_last : forall nts t ms m,
  match read_loop nts (ms ++ [m]) t with
  | LoopDone r | LoopFailed r | LoopPending r =>
      exists suffix, r = ms ++ [mkMessage (msg_role m) (content m ++ suffix) (timestamp m)]
  | LoopCrashed => True
  end.
Proof.
  induction t as [| | |v t IH]; intros ms m; cbn [read_loop];
    try (exists []; destruct m as [r c tm]; cbn; rewrite app_nil_r; reflexivity).
  destruct (apply_lines nts (ms ++ [m]) (split_nl (utf8_decode v))) as [ms'|] eqn:E; [|exact I].
  destruct (apply_lines_suffix _ _ _ _ _ E) as [suf ->].
  specialize (IH ms (mkMessage (msg_role m) (content m ++ suf) (timestamp m))).
  destruct (read_loop nts _ t); try exact I; destruct IH as [suf' ->]; exists (suf ++ suf');
    cbn; rewrite app_assoc; reflexivity.
Qed.

(** A line [null] makes the consumer's updater throw (the component
    crashes) when the last message is the assistant's, while [chatStream]
    catches the same [TypeError] and skips the line. *)
Theorem null_line_crashes_consumer : forall nts ms m value rest l ls,
  msg_role m = Assistant -> split_nl (utf8_decode value) = l :: ls ->
  trim_nonempty l = true -> json_parse l = Some JNull ->
  read_loop nts (ms ++ [m]) (TChunk value rest) = LoopCrashed
  /\ chat_lines (l :: ls) = chat_lines ls.
Proof.
  intros nts ms m value rest l ls Hm Hs Hl Hp. split.
  - cbn [read_loop]. rewrite Hs. cbn [apply_lines]. rewrite Hl, Hp.
    unfold append_response. rewrite last_opt_snoc, Hm. reflexivity.
  - cbn [chat_lines]. rewrite Hl, Hp. reflexivity.
Qed.

(** A line whose [response] is an object is appended as ["[object Object]"],
    unless that object has its own [toString] key: then [+=] cannot turn it
    into a string and the updater throws. *)
Theorem object_response_to_string : forall nts ms m l ls props inner,
  msg_role m = Assistant -> trim_nonempty l = true -> json_parse l = Some (JObj props) ->
  assoc (js "response") props = Some (JObj inner) ->
  apply_lines nts (ms ++ [m]) (l :: ls)
  = match assoc (js "toString") inner with
    | Some _ => None
    | None => apply_lines nts (ms ++ [mkMessage Assistant (content m ++ js "[object Object]") (timestamp m)]) ls
    end.
Proof.
  intros nts ms m l ls props inner Hm Hl Hp Ha. cbn [apply_lines]. rewrite Hl, Hp.
  unfold append_response. rewrite last_opt_snoc, Hm. cbn [role_eqb get_response]. rewrite Ha.
  cbn [jsval_to_string jvalue_to_string].
  destruct (assoc (js "toString") inner); [reflexivity|]. rewrite removelast_last. reflexivity.
Qed.

Lemma null_line_crashes_consumer_witness :
  msg_role (mkMessage Assistant (js "x") 2) = Assistant /\
  split_nl (utf8_decode (utf8_encode (js "null" ++ [10] ++ record_text (js "ab") ++ [10])))
    = js "null" :: [record_text (js "ab"); []] /\
  trim_nonempty (js "null") = true /\ json_parse (js "null") = Some JNull /\
  read_loop (fun l => l) ([mkMessage User (js "hi") 1] ++ [mkMessage Assistant (js "x") 2])
    (TChunk (utf8_encode (js "null" ++ [10] ++ record_text (js "ab") ++ [10])) TDone) = LoopCrashed
  /\ chat_lines (js "null" :: [record_text (js "ab"); []]) = chat_lines [record_text (js "ab"); []].
Proof.
  assert (H1 : split_nl (utf8_decode (utf8_encode (js "null" ++ [10] ++ record_text (js "ab") ++ [10])))
               = js "null" :: [record_text (js "ab"); []]) by (vm_compute; reflexivity).
  assert (H2 : json_parse (js "null") = Some JNull) by reflexivity.
  split; [reflexivity|]. split; [exact H1|]. split; [reflexivity|]. split; [exact H2|].
  exact (null_line_crashes_consumer (fun l => l) [mkMessage User (js "hi") 1] (mkMessage Assistant (js "x") 2) _ TDone _ _ eq_refl H1 eq_refl H2).
Defined.

(** For a content type that is not a key of [Object.prototype] the
    guidance is a non-empty string: the table's entry for a known type, the
    fixed fallback otherwise. *)
Theorem getContentTypePrompt_fallback : forall k,
  assoc k object_prototype = None ->
  exists s, getContentTypePrompt k = PStr s /\ s <> []
    /\ ((assoc k content_type_prompts = Some s) \/
        (assoc k content_type_prompts = None /\ s = js "Consider the best way to present this content interactively.")).
Proof.
  intros k H. rewrite getContentTypePrompt_own_or_default by exact H.
  destruct (assoc k content_type_prompts) as [s|] eqn:E.
  - exists s. split; [reflexivity|]. split; [|left; reflexivity].
    unfold content_type_prompts in E. cbn [assoc] in E.
    repeat match type of E with
           | context [if ?b then _ else _] => destruct b
           end; inversion E; subst; discriminate.
  - exists default_prompt. split; [reflexivity|]. split; [discriminate|right; split; reflexivity].
Qed.

(** [TextDecoder.decode] gives back a well-formed string from its UTF-8
    bytes, less a leading byte order mark. *)
Theorem utf8_decode_encode : forall s, wf16 s -> utf8_decode (utf8_encode s) = strip_bom s.
Proof. exact utf8_roundtrip_aux. Qed.

Lemma utf8_decode_encode_witness :
  wf16 [0xFEFF; 104; 0xE9; 0xD83D; 0xDE00] /\
  utf8_decode (utf8_encode [0xFEFF; 104; 0xE9; 0xD83D; 0xDE00]) = [104; 0xE9; 0xD83D; 0xDE00].
Proof.
  assert (W : wf16 [0xFEFF; 104; 0xE9; 0xD83D; 0xDE00]).
  { apply wf16_bmp; [lia|]. apply wf16_bmp; [lia|]. apply wf16_bmp; [lia|].
    apply wf16_pair; [reflexivity|reflexivity|apply wf16_nil]. }
  split; [exact W|]. exact (utf8_decode_encode _ W).
Defined.

Lemma json_string_roundtrip_witness :
  Forall in_range [0xD800; 34; 10; 92] /\
  json_parse (json_stringify (fun l => l) (JStr [0xD800; 34; 10; 92])) = Some (JStr [0xD800; 34; 10; 92]).
Proof.
  assert (F : Forall in_range [0xD800; 34; 10; 92]).
  { repeat (apply Forall_cons; [unfold in_range; lia|]). apply Forall_nil. }
  split; [exact F|]. exact (json_string_roundtrip (fun l => l) _ F).
Defined.

(** When every upstream read holds whole records [{"response": d}],
    [chatStream] passes the deltas to [callback] in order, completes, and
    leaves no controller behind. *)
Theorem chatStream_whole_record_reads : forall svc groups,
  Forall (Forall (Forall in_range)) groups ->
  chatStream svc (UResponse true :: record_reads groups ++ [UDone])
  = (mkService None (S (next_controller svc)), map (fun d => Val (JStr d)) (List.concat groups),
     SCompleted).
Proof. exact chatStream_records_aux. Qed.

Lemma chatStream_whole_record_reads_witness :
  Forall (Forall (Forall in_range)) [[js "Str"; js "uct"]; []; [[0xDC00]]] /\
  chatStream (mkService None 4) (UResponse true :: record_reads [[js "Str"; js "uct"]; []; [[0xDC00]]] ++ [UDone])
  = (mkService None 5, map (fun d => Val (JStr d)) (List.concat [[js "Str"; js "uct"]; []; [[0xDC00]]]),
     SCompleted).
Proof.
  assert (F : Forall (Forall (Forall in_range)) [[js "Str"; js "uct"]; []; [[0xDC00]]]).
  { repeat (first [apply js_in_range | apply Forall_cons | apply Forall_nil]); unfold in_range; lia. }
  split; [exact F|]. exact (chatStream_whole_record_reads (mkService None 4) _ F).
Defined.

Lemma relay_end_to_end_concat_witness :
  nonempty (js "H5P.Course") = true /\ trim_nonempty (js "photosynthesis") = true /\
  Forall (Forall (Forall in_range)) [[js "Struct"; js "ure: "]; [js "..."]] /\
  fst (handleSubmit (fun l => l) (js "H5P.Course")
         (relay_fetch (fun l => l) (mkService None 0) (Some (Val (JStr (js "p"))))
            (UResponse true :: record_reads [[js "Struct"; js "ure: "]; [js "..."]] ++ [UDone]))
         1 2 3 (mkChat [] (js "photosynthesis") false))
  = Some (mkChat ([] ++ [mkMessage User (js "photosynthesis") 1;
                         mkMessage Assistant (List.concat (List.concat [[js "Struct"; js "ure: "]; [js "..."]])) 2])
            [] false).
Proof.
  assert (F : Forall (Forall (Forall in_range)) [[js "Struct"; js "ure: "]; [js "..."]]).
  { repeat (first [apply js_in_range | apply Forall_cons | apply Forall_nil]). }
  split; [reflexivity|]. split; [reflexivity|]. split; [exact F|].
  exact (relay_end_to_end_concat (fun l => l) (mkService None 0) (Val (JStr (js "p")))
           (js "H5P.Course") (js "photosynthesis") [] 1 2 3 _ eq_refl eq_refl F).
Defined.

Lemma relay_missing_response_shows_undefined_witness :
  nonempty (js "H5P.Course") = true /\ trim_nonempty (js "photosynthesis") = true /\
  Forall in_range (js "error") /\ Forall in_range (js "model not found") /\
  js "error" <> js "response" /\
  fst (handleSubmit (fun l => l) (js "H5P.Course")
         (relay_fetch (fun l => l) (mkService None 0) (Some (Val (JStr (js "p"))))
            [UResponse true; UChunk (utf8_encode (field_record (js "error") (js "model not found") ++ [10]));
             UDone])
         1 2 3 (mkChat [] (js "photosynthesis") false))
  = Some (mkChat ([] ++ [mkMessage User (js "photosynthesis") 1; mkMessage Assistant (js "undefined") 2])
            [] false).
Proof.
  assert (N : js "error" <> js "response") by discriminate.
  split; [reflexivity|]. split; [reflexivity|]. split; [apply js_in_range|].
  split; [apply js_in_range|]. split; [exact N|].
  exact (relay_missing_response_shows_undefined (fun l => l) (mkService None 0) (Val (JStr (js "p")))
           (js "H5P.Course") (js "photosynthesis") [] 1 2 3 (js "error") (js "model not found")
           eq_refl eq_refl (js_in_range _) (js_in_range _) N).
Defined.

Lemma relay_failure_shows_undefined_witness :
  nonempty (js "H5P.Course") = true /\ trim_nonempty (js "photosynthesis") = true /\
  fst (handleSubmit (fun l => l) (js "H5P.Course")
         (relay_fetch (fun l => l) (mkService None 0) (Some (Val (JStr (js "p")))) [UFail])
         1 2 3 (mkChat [] (js "photosynthesis") false))
  = Some (mkChat ([] ++ [mkMessage User (js "photosynthesis") 1; mkMessage Assistant (js "undefined") 2])
            [] false).
Proof.
  split; [reflexivity|]. split; [reflexivity|].
  apply (relay_failure_shows_undefined (fun l => l) (mkService None 0) (js "H5P.Course")
           (js "photosynthesis") [] 1 2 3 (Some (Val (JStr (js "p")))) [UFail] eq_refl eq_refl).
  right. exists (Val (JStr (js "p"))). split; [reflexivity|]. split; reflexivity.
Defined.

Lemma upstream_failure_no_apology_witness :
  nonempty (js "H5P.Course") = true /\ trim_nonempty (js "intro to photosynthesis") = true /\
  (exists calls,
     snd (relay_stream (fun l => l) (mkService None 0) (js "H5P.Course") (js "intro to photosynthesis")
            None [])
       = calls ++ [StatusJson 500 (error_body (js "Failed to stream content suggestions"))]
     /\ Forall (fun e => exists s p, e = UpstreamCall s p) calls)
  /\ handleSubmit (fun l => l) (js "H5P.Course") (relay_fetch (fun l => l) (mkService None 0) None [])
       1 2 3 (mkChat [] (js "intro to photosynthesis") false)
     = (Some (mkChat ([] ++ [mkMessage User (js "intro to photosynthesis") 1;
                             mkMessage Assistant (js "undefined") 2]) [] false),
        Resolved Undefined)
  /\ (forall inp' fetch' t1' t2' t3',
        trim_nonempty inp' = true ->
        match fst (handleSubmit (fun l => l) (js "H5P.Course") fetch' t1' t2' t3'
                     (mkChat ([] ++ [mkMessage User (js "intro to photosynthesis") 1;
                                     mkMessage Assistant (js "undefined") 2]) inp' false)) with
        | Some st => exists rest,
            messages st = ([] ++ [mkMessage User (js "intro to photosynthesis") 1;
                                  mkMessage Assistant (js "undefined") 2])
                          ++ mkMessage User inp' t1' :: rest
        | None => True
        end).
Proof.
  split; [reflexivity|]. split; [reflexivity|].
  apply (upstream_failure_no_apology (fun l => l) (mkService None 0) (js "H5P.Course")
           (js "intro to photosynthesis") [] 1 2 3 None [] eq_refl eq_refl).
  left. reflexivity.
Defined.

Lemma handleSubmit_request_failure_witness :
  trim_nonempty (js "help") = true /\
  ((fun _ _ => FetchResponse (Some TFail)) (js "H5P.Course") (js "help") = FetchReject ->
     handleSubmit (fun l => l) (js "H5P.Course") (fun _ _ => FetchResponse (Some TFail)) 1 2 3
       (mkChat [] (js "help") false)
     = (Some (mkChat ([] ++ [mkMessage User (js "help") 1; mkMessage Assistant apology_text 3]) [] false),
        Resolved Undefined))
  /\ ((fun _ _ => FetchResponse (Some TFail)) (js "H5P.Course") (js "help") = FetchResponse None
      \/ (fun _ _ => FetchResponse (Some TFail)) (js "H5P.Course") (js "help") = FetchResponse (Some TFail) ->
     handleSubmit (fun l => l) (js "H5P.Course") (fun _ _ => FetchResponse (Some TFail)) 1 2 3
       (mkChat [] (js "help") false)
     = (Some (mkChat ([] ++ [mkMessage User (js "help") 1; mkMessage Assistant [] 2;
                             mkMessage Assistant apology_text 3]) [] false),
        Resolved Undefined)).
Proof.
  split; [reflexivity|].
  exact (handleSubmit_request_failure (fun l => l) (js "H5P.Course") (fun _ _ => FetchResponse (Some TFail))
           1 2 3 [] (js "help") eq_refl).
Defined.

Lemma suggestions_route_answer_witness :
  nonempty (js "H5P.Timeline") = true /\ nonempty (js "history") = true /\
  Forall in_range [0xD83D] /\
  suggestions_route (fun l => l) (js "H5P.Timeline") (js "history") (Some (Val (JStr [0xD83D])))
    = [UpstreamCall false (Val (JStr (build_prompt (js "H5P.Timeline") (js "history"))));
       StatusJson 200 (field_record (js "suggestions") [0xD83D])]
  /\ json_parse (field_record (js "suggestions") [0xD83D]) = Some (JObj [(js "suggestions", JStr [0xD83D])])
  /\ suggestions_route (fun l => l) (js "H5P.Timeline") (js "history") (Some Undefined)
    = [UpstreamCall false (Val (JStr (build_prompt (js "H5P.Timeline") (js "history"))));
       StatusJson 200 (js "{}")]
  /\ suggestions_route (fun l => l) (js "H5P.Timeline") (js "history") None
    = [UpstreamCall false (Val (JStr (build_prompt (js "H5P.Timeline") (js "history"))));
       StatusJson 500 (error_body (js "Failed to get content suggestions"))].
Proof.
  assert (F : Forall in_range [0xD83D]) by (apply Forall_cons; [unfold in_range; lia|apply Forall_nil]).
  split; [reflexivity|]. split; [reflexivity|]. split; [exact F|].
  exact (suggestions_route_answer (fun l => l) (js "H5P.Timeline") (js "history") _ eq_refl eq_refl F).
Defined.

Lemma handleSubmit_settled_state_witness :
  trim_nonempty (js "quiz") = true /\
  match fst (handleSubmit (fun l => l) (js "H5P.QuestionSet")
               (fun _ _ => FetchResponse (Some (TChunk (utf8_encode (record_text (js "Q1") ++ [10])) TPending)))
               1 2 3 (mkChat [] (js "quiz") false)) with
  | Some st =>
      input st = []
      /\ (exists rest, messages st = [] ++ mkMessage User (js "quiz") 1 :: rest)
      /\ (isLoading st = true ->
          exists t r, (fun _ _ => FetchResponse (Some (TChunk (utf8_encode (record_text (js "Q1") ++ [10])) TPending)))
                        (js "H5P.QuestionSet") (js "quiz") = FetchResponse (Some t)
            /\ read_loop (fun l => l) (([] ++ [mkMessage User (js "quiz") 1]) ++ [mkMessage Assistant [] 2]) t
               = LoopPending r)
  | None => True
  end.
Proof.
  split; [reflexivity|]. exact (handleSubmit_settled_state (fun l => l) (js "H5P.QuestionSet")
    (fun _ _ => FetchResponse (Some (TChunk (utf8_encode (record_text (js "Q1") ++ [10])) TPending)))
    1 2 3 [] (js "quiz") eq_refl).
Defined.

Lemma getContentTypePrompt_fallback_witness :
  assoc (js "H5P.Foo") object_prototype = None /\
  exists s, getContentTypePrompt (js "H5P.Foo") = PStr s /\ s <> []
    /\ ((assoc (js "H5P.Foo") content_type_prompts = Some s) \/
        (assoc (js "H5P.Foo") content_type_prompts = None
         /\ s = js "Consider the best way to present this content interactively.")).
Proof.
  assert (H : assoc (js "H5P.Foo") object_prototype = None) by reflexivity.
  split; [exact H|]. exact (getContentTypePrompt_fallback _ H).
Defined.

Lemma object_response_to_string_witness :
  msg_role (mkMessage Assistant (js "x") 2) = Assistant
  /\ trim_nonempty (toString_record) = true
  /\ json_parse (toString_record)
     = Some (JObj [(js "response", JObj [(js "toString", JNum (js "1"))])])
  /\ assoc (js "response") [(js "response", JObj [(js "toString", JNum (js "1"))])]
     = Some (JObj [(js "toString", JNum (js "1"))])
  /\ apply_lines (fun l => l) ([mkMessage User (js "hi") 1] ++ [mkMessage Assistant (js "x") 2])
       [toString_record]
     = match assoc (js "toString") [(js "toString", JNum (js "1"))] with
       | Some _ => None
       | None => apply_lines (fun l => l)
                   ([mkMessage User (js "hi") 1]
                    ++ [mkMessage Assistant (content (mkMessage Assistant (js "x") 2) ++ js "[object Object]")
                          (timestamp (mkMessage Assistant (js "x") 2))]) []
       end.
Proof.
  assert (P : json_parse (toString_record)
              = Some (JObj [(js "response", JObj [(js "toString", JNum (js "1"))])]))
    by (vm_compute; reflexivity).
  split; [reflexivity|]. split; [reflexivity|]. split; [exact P|]. split; [reflexivity|].
  exact (object_response_to_string (fun l => l) [mkMessage User (js "hi") 1] (mkMessage Assistant (js "x") 2)
           toString_record [] _ _ eq_refl eq_refl P eq_refl).
Defined.
